(** * ascii-renderer: the software rasterizer of [main.cpp]

    A shallow embedding of the rendering-relevant part of [main.cpp]: the
    [Vec3]/[Mat4] math library, [get_ascii_char], [barycentric], the
    command-line and start-up checks of [main], and the per-triangle body
    of the render loop (back-face culling, flat shading, clip-space
    transform, bounding box, depth-tested scan conversion).

    Numbers.  The C++ type [float] is IEEE-754 binary32.  It is modelled by
    the Standard Library's [spec_float] with precision 24 and maximal
    exponent 128; every operation rounds to nearest-even, one operation at a
    time (no contraction into fused multiply-add).  [int] values are
    modelled in [Z]; all of them are bounded by the grid size, except the
    result of a float-to-int conversion, which is brought back into the
    [int] range by [F32.to_int].  Rounding errors are bounded in the
    Standard Library's real numbers. *)

From Stdlib Require Import Reals Lra Psatz.
From Stdlib Require Import ZArith Bool String Ascii Lia.
From Stdlib Require Import SpecFloat.
From stdpp Require Import base option list.

Local Open Scope Z_scope.

(** ** binary32 *)

Definition float : Type := spec_float.

Module F32.

Definition prec : Z := 24.
Definition emax : Z := 128.

Definition add : float -> float -> float := SFadd prec emax.
Definition sub : float -> float -> float := SFsub prec emax.
Definition mul : float -> float -> float := SFmul prec emax.
Definition div : float -> float -> float := SFdiv prec emax.
Definition sqrt : float -> float := SFsqrt prec emax.
Definition neg : float -> float := SFopp.
Definition abs : float -> float := SFabs.

(** [a < b], [a <= b], [a > b], [a >= b]; all false when an operand is NaN. *)
Definition lt (a b : float) : bool := SFltb a b.
Definition le (a b : float) : bool := SFleb a b.
Definition gt (a b : float) : bool := SFltb b a.
Definition ge (a b : float) : bool := SFleb b a.

(** The binary32 value nearest to [m * 2^e]; used for literals. *)
Definition lit (m e : Z) : float := binary_normalize prec emax m e false.

(** [static_cast<float>(n)] and the implicit int-to-float conversion. *)
Definition of_int (n : Z) : float := binary_normalize prec emax n 0 false.

Definition zero : float := S754_zero false.
Definition one : float := lit 1 0.
Definition half : float := lit 1 (-1).
(** [0.1f], the binary32 value nearest to one tenth. *)
Definition tenth : float := S754_finite false 13421773 (-27).

Definition INT_MIN : Z := -2147483648.
Definition INT_MAX : Z := 2147483647.

(** The integer part of a finite value, rounded toward zero. *)
Definition trunc (x : float) : option Z :=
  match x with
  | S754_zero _ => Some 0
  | S754_finite s m e =>
      Some (cond_Zopp s
              (match e with
               | Z0 => Zpos m
               | Zpos _ => Zpos m * 2 ^ e
               | Zneg p => Zpos m / 2 ^ Zpos p
               end))
  | _ => None
  end.

(** [static_cast<int>(x)].  The conversion truncates toward zero.  For a
    NaN, an infinity or a value outside the [int] range C++ leaves the
    result undefined; the model takes the value the x86-64 conversion
    instruction produces there, [INT_MIN]. *)
Definition to_int (x : float) : Z :=
  match trunc x with
  | Some v => if (INT_MIN <=? v) && (v <=? INT_MAX) then v else INT_MIN
  | None => INT_MIN
  end.

(** [std::ceil] on [float]: the least integral value not below [x], as a
    float; zeros, infinities and NaN are returned unchanged and a
    negative fraction above -1 gives -0. *)
Definition ceil (x : float) : float :=
  match x with
  | S754_finite s m (Zneg p) =>
      let d := 2 ^ Zpos p in
      let q := if s then Zpos m / d else (Zpos m + d - 1) / d in
      binary_normalize prec emax (cond_Zopp s q) 0 s
  | _ => x
  end.

(** [std::max(a, b)] and [std::min(a, b)] as the C++ library defines
    them with [operator<]. *)
Definition max (a b : float) : float := if lt a b then b else a.
Definition min (a b : float) : float := if lt b a then b else a.

(** [std::min({a, b, c})] and [std::max({a, b, c})]: a left-to-right scan
    that keeps the first smallest (largest) element. *)
Definition min3 (a b c : float) : float :=
  let m := if lt b a then b else a in
  if lt c m then c else m.
Definition max3 (a b c : float) : float :=
  let m := if lt a b then b else a in
  if lt m c then c else m.

(** Promotion of a [float] to [double] (exact), and the [double] literal
    [1e-5]. *)
Definition to_double (x : float) : spec_float :=
  match x with
  | S754_finite s m e => binary_round 53 1024 s m e
  | _ => x
  end.
Definition d1e_5 : spec_float := S754_finite false 5902958103587057 (-69).

End F32.

Declare Scope f32_scope.
Delimit Scope f32_scope with f32.
Infix "+" := F32.add : f32_scope.
Infix "-" := F32.sub : f32_scope.
Infix "*" := F32.mul : f32_scope.
Infix "/" := F32.div : f32_scope.
Notation "- x" := (F32.neg x) : f32_scope.

(** ** Math library *)

Record Vec3 : Type := mkVec3 { x3 : float; y3 : float; z3 : float }.

Record Vec4 : Type := mkVec4 { x4 : float; y4 : float; z4 : float; w4 : float }.

Module Vec3.
Local Open Scope f32_scope.

Definition add (a b : Vec3) : Vec3 :=
  mkVec3 (x3 a + x3 b) (y3 a + y3 b) (z3 a + z3 b).
Definition subtract (a b : Vec3) : Vec3 :=
  mkVec3 (x3 a - x3 b) (y3 a - y3 b) (z3 a - z3 b).
Definition scale (v : Vec3) (s : float) : Vec3 :=
  mkVec3 (x3 v * s) (y3 v * s) (z3 v * s).
Definition dot (a b : Vec3) : float :=
  x3 a * x3 b + y3 a * y3 b + z3 a * z3 b.
Definition cross (a b : Vec3) : Vec3 :=
  mkVec3 (y3 a * z3 b - z3 a * y3 b)
         (z3 a * x3 b - x3 a * z3 b)
         (x3 a * y3 b - y3 a * x3 b).
Definition length (v : Vec3) : float := F32.sqrt (dot v v).
Definition zero : Vec3 := mkVec3 F32.zero F32.zero F32.zero.
Definition normalize (v : Vec3) : Vec3 :=
  let len := length v in
  if F32.gt len F32.zero then scale v (F32.one / len) else zero.
End Vec3.

(** ** Helper functions *)

Definition ascii_chars : string := " .:-=+*#%@".

Definition get_ascii_char (intensity : float) : ascii :=
  let last := Z.of_nat (String.length ascii_chars) - 1 in
  let index := F32.to_int (F32.mul intensity (F32.of_int last)) in
  let index := Z.max 0 (Z.min last index) in
  match String.get (Z.to_nat index) ascii_chars with
  | Some c => c
  | None => "000"%char
  end.

Definition barycentric_denom (a b c : Vec3) : float :=
  let v0 := Vec3.subtract b a in
  let v1 := Vec3.subtract c a in
  let d00 := Vec3.dot v0 v0 in
  let d01 := Vec3.dot v0 v1 in
  let d11 := Vec3.dot v1 v1 in
  (d00 * d11 - d01 * d01)%f32.

Definition minus_one : float := F32.lit (-1) 0.

Definition barycentric (p a b c : Vec3) : Vec3 :=
  let v0 := Vec3.subtract b a in
  let v1 := Vec3.subtract c a in
  let v2 := Vec3.subtract p a in
  let d00 := Vec3.dot v0 v0 in
  let d01 := Vec3.dot v0 v1 in
  let d11 := Vec3.dot v1 v1 in
  let d20 := Vec3.dot v2 v0 in
  let d21 := Vec3.dot v2 v1 in
  let denom := (d00 * d11 - d01 * d01)%f32 in
  if SFltb (F32.to_double (F32.abs denom)) F32.d1e_5
  then mkVec3 minus_one minus_one minus_one
  else
    let v := ((d11 * d20 - d01 * d21) / denom)%f32 in
    let w := ((d00 * d21 - d01 * d20) / denom)%f32 in
    let u := (F32.one - v - w)%f32 in
    mkVec3 u v w.

(** [float m[16]], column-major: [m[col*4 + row]]. *)
Definition Mat4 : Type := list float.

Module Mat4.
Local Open Scope f32_scope.

(** [m[i]] *)
Definition at_ (m : Mat4) (i : nat) : float := nth i m F32.zero.

(** [Mat4 mat = {}] *)
Definition zeros : Mat4 := replicate 16 F32.zero.

Definition identity : Mat4 :=
  <[15%nat := F32.one]> (<[10%nat := F32.one]> (<[5%nat := F32.one]>
    (<[0%nat := F32.one]> zeros))).

Definition multiply (a b : Mat4) : Mat4 :=
  i ← seq 0 4;
  j ← seq 0 4;
  [foldl (fun sum k => sum + at_ a (k * 4 + j) * at_ b (i * 4 + k))
         F32.zero (seq 0 4)].

Definition transform (m : Mat4) (v : Vec4) : Vec4 :=
  mkVec4
    (at_ m 0 * x4 v + at_ m 4 * y4 v + at_ m 8 * z4 v + at_ m 12 * w4 v)
    (at_ m 1 * x4 v + at_ m 5 * y4 v + at_ m 9 * z4 v + at_ m 13 * w4 v)
    (at_ m 2 * x4 v + at_ m 6 * y4 v + at_ m 10 * z4 v + at_ m 14 * w4 v)
    (at_ m 3 * x4 v + at_ m 7 * y4 v + at_ m 11 * z4 v + at_ m 15 * w4 v).

Definition create_translation (t : Vec3) : Mat4 :=
  <[14%nat := z3 t]> (<[13%nat := y3 t]> (<[12%nat := x3 t]> identity)).

(** [create_rotation_y] and [perspective] call [std::cos], [std::sin] and
    [std::tan]; the values those calls return are arguments here:
    [c = std::cos(angle_rad)], [s = std::sin(angle_rad)] and
    [tan_half_fov = std::tan(fov_degrees * M_PI / 360.0f)] narrowed to
    [float]. *)
Definition create_rotation_y (c s : float) : Mat4 :=
  <[10%nat := c]> (<[2%nat := - s]> (<[8%nat := s]> (<[0%nat := c]> identity))).

Definition perspective (tan_half_fov aspect near_plane far_plane : float) : Mat4 :=
  let two := F32.lit 2 0 in
  <[14%nat := - (two * far_plane * near_plane) / (far_plane - near_plane)]>
    (<[11%nat := - F32.one]>
    (<[10%nat := - (far_plane + near_plane) / (far_plane - near_plane)]>
    (<[5%nat := F32.one / tan_half_fov]>
    (<[0%nat := F32.one / (aspect * tan_half_fov)]> zeros)))).

Definition lookAt (eye target up : Vec3) : Mat4 :=
  let zaxis := Vec3.normalize (Vec3.subtract eye target) in
  let xaxis := Vec3.normalize (Vec3.cross up zaxis) in
  let yaxis := Vec3.cross zaxis xaxis in
  let viewMatrix :=
    <[10%nat := z3 zaxis]> (<[6%nat := y3 zaxis]> (<[2%nat := x3 zaxis]>
    (<[9%nat := z3 yaxis]> (<[5%nat := y3 yaxis]> (<[1%nat := x3 yaxis]>
    (<[8%nat := z3 xaxis]> (<[4%nat := y3 xaxis]> (<[0%nat := x3 xaxis]>
      identity)))))))) in
  let translation :=
    create_translation (mkVec3 (- x3 eye) (- y3 eye) (- z3 eye)) in
  multiply viewMatrix translation.
End Mat4.

(** ** The frame buffer

    [depth_buffer] and [char_buffer] are the two [std::vector]s of [main],
    both of size [SCREEN_WIDTH * SCREEN_HEIGHT].  An access outside a
    vector is undefined in C++; [read] and [write] return [None] there, and
    the rasterizer propagates it. *)

Record FrameBuffer : Type := mkFrameBuffer {
  depth_buffer : list float;
  char_buffer : list ascii
}.

Definition read {A : Type} (v : list A) (i : Z) : option A :=
  if (0 <=? i) && (i <? Z.of_nat (length v)) then v !! Z.to_nat i else None.

Definition write {A : Type} (v : list A) (i : Z) (a : A) : option (list A) :=
  if (0 <=? i) && (i <? Z.of_nat (length v))
  then Some (<[Z.to_nat i := a]> v) else None.

(** The two [std::fill] calls at the start of a frame. *)
Definition clear (SCREEN_WIDTH SCREEN_HEIGHT : Z) : FrameBuffer :=
  let n := Z.to_nat (SCREEN_WIDTH * SCREEN_HEIGHT) in
  mkFrameBuffer (replicate n F32.zero) (replicate n " "%char).

(** A [for] loop over the elements of [l], threading the state and stopping
    at the first undefined access. *)
Fixpoint for_each {A S : Type} (l : list A) (body : A -> S -> option S) (s : S)
  : option S :=
  match l with
  | [] => Some s
  | a :: l' => s' ← body a s; for_each l' body s'
  end.

(** The values of [for (int i = lo; i <= hi; ++i)]. *)
Definition range (lo hi : Z) : list Z := seqZ lo (hi - lo + 1).

(** ** The render loop body of [main] *)

(** The three world-space vertices [v_world] of a face.  The face loop
    skips the faces whose vertex count is not 3 and reads the vertices
    from the arrays of the model loader; the mesh is taken here after that
    step, as the list of its triangles. *)
Definition Triangle : Type := (Vec3 * Vec3 * Vec3)%type.

(** A screen-space vertex with its [inv_w]. *)
Record ScreenVertex : Type := mkScreenVertex { v_screen : Vec3; inv_w : float }.

Section Rasterizer.
Variables SCREEN_WIDTH SCREEN_HEIGHT : Z.
Variable camera_pos : Vec3.
Variable light_direction : Vec3.
Variable mvp_matrix : Mat4.

Local Open Scope f32_scope.

(** Back-face culling *)
Definition face_normal (t : Triangle) : Vec3 :=
  let '(v0, v1, v2) := t in
  let edge1 := Vec3.subtract v1 v0 in
  let edge2 := Vec3.subtract v2 v0 in
  Vec3.normalize (Vec3.cross edge1 edge2).

Definition view_vector (t : Triangle) : Vec3 :=
  let '(v0, _, _) := t in
  Vec3.normalize (Vec3.subtract v0 camera_pos).

Definition back_facing (t : Triangle) : bool :=
  F32.ge (Vec3.dot (face_normal t) (view_vector t)) F32.zero.

(** Flat lighting *)
Definition flat_intensity (t : Triangle) : float :=
  let intensity := Vec3.dot (face_normal t) (Vec3.scale light_direction minus_one) in
  F32.max F32.tenth intensity.

Definition flat_glyph (t : Triangle) : ascii :=
  get_ascii_char (flat_intensity t).

(** One iteration of the vertex loop; [None] is the [break] taken when
    the vertex is behind or on the camera plane. *)
Definition clip_w (v : Vec3) : float :=
  w4 (Mat4.transform mvp_matrix (mkVec4 (x3 v) (y3 v) (z3 v) F32.one)).

Definition transform_vertex (v : Vec3) : option ScreenVertex :=
  let v_clip := Mat4.transform mvp_matrix (mkVec4 (x3 v) (y3 v) (z3 v) F32.one) in
  if F32.le (w4 v_clip) F32.zero then None
  else
    let inv_w := F32.one / w4 v_clip in
    let v_ndc := mkVec3 (x4 v_clip * inv_w) (y4 v_clip * inv_w) (z4 v_clip * inv_w) in
    Some (mkScreenVertex
            (mkVec3 ((x3 v_ndc + F32.one) * F32.half * F32.of_int SCREEN_WIDTH)
                    ((F32.one - y3 v_ndc) * F32.half * F32.of_int SCREEN_HEIGHT)
                    (z3 v_ndc))
            inv_w).

(** The vertex loop; [None] when [behind_camera] is set. *)
Definition transform_vertices (t : Triangle)
  : option (ScreenVertex * ScreenVertex * ScreenVertex) :=
  let '(v0, v1, v2) := t in
  s0 ← transform_vertex v0;
  s1 ← transform_vertex v1;
  s2 ← transform_vertex v2;
  Some (s0, s1, s2).

(** The clamped integer bounding box [(minX, maxX, minY, maxY)]. *)
Definition bounding_box (s0 s1 s2 : ScreenVertex) : Z * Z * Z * Z :=
  let a := v_screen s0 in
  let b := v_screen s1 in
  let c := v_screen s2 in
  let minX := Z.max 0 (F32.to_int (F32.min3 (x3 a) (x3 b) (x3 c))) in
  let maxX := Z.min (SCREEN_WIDTH - 1)
                (F32.to_int (F32.ceil (F32.max3 (x3 a) (x3 b) (x3 c)))) in
  let minY := Z.max 0 (F32.to_int (F32.min3 (y3 a) (y3 b) (y3 c))) in
  let maxY := Z.min (SCREEN_HEIGHT - 1)
                (F32.to_int (F32.ceil (F32.max3 (y3 a) (y3 b) (y3 c)))) in
  (minX, maxX, minY, maxY).

(** The cell centre and its barycentric coordinates. *)
Definition cell_bc (s0 s1 s2 : ScreenVertex) (x y : Z) : Vec3 :=
  let p := mkVec3 (F32.of_int x + F32.half) (F32.of_int y + F32.half) F32.zero in
  barycentric p (v_screen s0) (v_screen s1) (v_screen s2).

(** [bc.x < 0 || bc.y < 0 || bc.z < 0] *)
Definition outside (bc : Vec3) : bool :=
  F32.lt (x3 bc) F32.zero || F32.lt (y3 bc) F32.zero || F32.lt (z3 bc) F32.zero.

Definition interpolated_inv_w (s0 s1 s2 : ScreenVertex) (bc : Vec3) : float :=
  x3 bc * inv_w s0 + y3 bc * inv_w s1 + z3 bc * inv_w s2.

(** The body of the two pixel loops at cell [(x, y)]. *)
Definition shade_pixel (ascii_char : ascii) (s0 s1 s2 : ScreenVertex)
  (y x : Z) (fb : FrameBuffer) : option FrameBuffer :=
  let bc := cell_bc s0 s1 s2 x y in
  if outside bc then Some fb
  else
    let iw := interpolated_inv_w s0 s1 s2 bc in
    let i := (y * SCREEN_WIDTH + x)%Z in
    d ← read (depth_buffer fb) i;
    if F32.gt iw d then
      db ← write (depth_buffer fb) i iw;
      cb ← write (char_buffer fb) i ascii_char;
      Some (mkFrameBuffer db cb)
    else Some fb.

(** Rasterize triangle *)
Definition rasterize (ascii_char : ascii) (s0 s1 s2 : ScreenVertex)
  (fb : FrameBuffer) : option FrameBuffer :=
  let '(minX, maxX, minY, maxY) := bounding_box s0 s1 s2 in
  for_each (range minY maxY)
    (fun y => for_each (range minX maxX) (shade_pixel ascii_char s0 s1 s2 y))
    fb.

(** The body of the face loop for one triangle. *)
Definition draw_triangle (t : Triangle) (fb : FrameBuffer) : option FrameBuffer :=
  if back_facing t then Some fb
  else
    let ascii_char := flat_glyph t in
    match transform_vertices t with
    | None => Some fb
    | Some (s0, s1, s2) => rasterize ascii_char s0 s1 s2 fb
    end.

(** The render loop over the triangles of the mesh. *)
Definition draw_triangles (ts : list Triangle) (fb : FrameBuffer)
  : option FrameBuffer :=
  for_each ts draw_triangle fb.

End Rasterizer.

(** ** The start of [main]: argument check and initialisation

    The libraries [main] calls (SDL, SDL_ttf, tinyobjloader) are outside
    the repository.  What they answer is collected in an [Env]; what [main]
    does is a trace of [event]s (the lines written to [std::cerr] and the
    library calls made) and an [outcome]. *)

Record Env : Type := mkEnv {
  SDL_Init_result : Z;
  TTF_Init_result : Z;
  TTF_OpenFont_ok : string -> bool;
  window_and_renderer_ok : bool;
  LoadObj_ok : string -> bool;
  SDL_GetError : string;
  TTF_GetError : string;
  warn_err : string
}.

Inductive event : Type :=
  | Stderr (line : string)
  | Lib (call : string).

Inductive outcome : Type :=
  | Return (code : Z)
  | MainLoop (inputfile fontfile : string).

Definition argv_at (argv : list string) (i : nat) : string := nth i argv EmptyString.

Definition usage (argv : list string) : string :=
  ("Usage: " ++ argv_at argv 0 ++ " <path_to_obj_file> <path_to_font_file>")%string.

(** [main] from the font loading on. *)
Definition main_load (inputfile fontfile : string) (env : Env)
  : list event * outcome :=
  if negb (TTF_OpenFont_ok env fontfile) then
    ([Lib "TTF_OpenFont";
      Stderr ("Failed to load font: " ++ TTF_GetError env)%string;
      Lib "TTF_Quit"; Lib "SDL_Quit"], Return 1)
  else if negb (window_and_renderer_ok env) then
    ([Lib "TTF_OpenFont"; Lib "TTF_SizeText";
      Lib "SDL_CreateWindow"; Lib "SDL_CreateRenderer";
      Stderr ("Window or Renderer could not be created! SDL_Error: "
              ++ SDL_GetError env)%string;
      Lib "TTF_CloseFont"; Lib "TTF_Quit"; Lib "SDL_Quit"], Return 1)
  else if negb (LoadObj_ok env inputfile) then
    ([Lib "TTF_OpenFont"; Lib "TTF_SizeText";
      Lib "SDL_CreateWindow"; Lib "SDL_CreateRenderer";
      Lib "tinyobj::LoadObj";
      Stderr ("Failed to load OBJ: " ++ warn_err env)%string], Return 1)
  else
    ([Lib "TTF_OpenFont"; Lib "TTF_SizeText";
      Lib "SDL_CreateWindow"; Lib "SDL_CreateRenderer";
      Lib "tinyobj::LoadObj"], MainLoop inputfile fontfile).

(** [main] from the initialisation of SDL on. *)
Definition main_init (inputfile fontfile : string) (env : Env)
  : list event * outcome :=
  if SDL_Init_result env <? 0 then
    ([Lib "SDL_Init";
      Stderr ("SDL could not initialize! SDL_Error: " ++ SDL_GetError env)%string],
     Return 1)
  else if TTF_Init_result env =? -1 then
    ([Lib "SDL_Init"; Lib "TTF_Init";
      Stderr ("SDL_ttf could not initialize! TTF_Error: " ++ TTF_GetError env)%string;
      Lib "SDL_Quit"], Return 1)
  else
    let '(tr, out) := main_load inputfile fontfile env in
    ([Lib "SDL_Init"; Lib "TTF_Init"] ++ tr, out).

(** [main] up to the entry of the main loop; [argc] is the length of
    [argv]. *)
Definition main (argv : list string) (env : Env) : list event * outcome :=
  let argc := Z.of_nat (length argv) in
  if argc <? 3 then ([Stderr (usage argv)], Return 1)
  else
    let inputfile := argv_at argv 1 in
    let fontfile := argv_at argv 2 in
    main_init inputfile fontfile env.

(** ** The constants of [main] and one frame *)

Definition SCREEN_WIDTH : Z := 160.
Definition SCREEN_HEIGHT : Z := 90.

Definition vec3_of_ints (a b c : Z) : Vec3 :=
  mkVec3 (F32.of_int a) (F32.of_int b) (F32.of_int c).

Definition camera_pos : Vec3 := mkVec3 F32.zero (F32.lit 2 0) (F32.lit (-5) 0).
Definition look_at : Vec3 := mkVec3 F32.zero F32.zero F32.zero.
Definition up_vec : Vec3 := mkVec3 F32.zero F32.one F32.zero.
Definition light_direction : Vec3 :=
  Vec3.normalize (mkVec3 F32.half minus_one minus_one).

(** Setup Matrices.  [c] and [s] are the cosine and sine of
    [rotation_angle_y], [tan_half_fov] the tangent of half the 90 degree
    field of view, and [font_width], [font_height] the cell size
    [TTF_SizeText] reports. *)
Definition mvp_matrix (c s tan_half_fov : float) (font_width font_height : Z) : Mat4 :=
  let PIXEL_WIDTH := SCREEN_WIDTH * font_width in
  let PIXEL_HEIGHT := SCREEN_HEIGHT * font_height in
  let model_matrix := Mat4.create_rotation_y c s in
  let view_matrix := Mat4.lookAt camera_pos look_at up_vec in
  let projection_matrix :=
    Mat4.perspective tan_half_fov
      (F32.of_int PIXEL_WIDTH / F32.of_int PIXEL_HEIGHT)%f32
      F32.tenth (F32.lit 100 0) in
  let mv_matrix := Mat4.multiply view_matrix model_matrix in
  Mat4.multiply projection_matrix mv_matrix.

(** One pass of the main loop over the mesh: clear both buffers, then draw
    every triangle. *)
Definition render_frame (mvp : Mat4) (ts : list Triangle) : option FrameBuffer :=
  draw_triangles SCREEN_WIDTH SCREEN_HEIGHT camera_pos light_direction mvp ts
    (clear SCREEN_WIDTH SCREEN_HEIGHT).

(** The first frame ([rotation_angle_y = 0], so cosine 1 and sine 0; the
    tangent of 45 degrees narrows to [1.0f]) with a font cell of 7 by 14
    pixels. *)
Definition mvp0 : Mat4 := mvp_matrix F32.one F32.zero F32.one 7 14.

(** ** Notions used to state the properties *)

(** Both buffers have one entry per cell of the grid. *)
Definition buffers_sized (W H : Z) (fb : FrameBuffer) : Prop :=
  length (depth_buffer fb) = Z.to_nat (W * H) /\
  length (char_buffer fb) = Z.to_nat (W * H).

(** The depth value and the glyph stored for cell [(x, y)]. *)
Definition pixel_at (W : Z) (fb : FrameBuffer) (x y : Z) : option (float * ascii) :=
  d ← read (depth_buffer fb) (y * W + x);
  c ← read (char_buffer fb) (y * W + x);
  Some (d, c).

(** The depth test on one cell: the stored pair is replaced when the new
    inverse depth is strictly greater. *)
Definition depth_test (ascii_char : ascii) (iw : float) (old : float * ascii)
  : float * ascii :=
  if F32.gt iw (fst old) then (iw, ascii_char) else old.

(** Cell [(x, y)] lies in the clamped bounding box. *)
Definition in_box (box : Z * Z * Z * Z) (x y : Z) : bool :=
  let '(minX, maxX, minY, maxY) := box in
  (minX <=? x) && (x <=? maxX) && (minY <=? y) && (y <=? maxY).

(** The inside test at cell [(x, y)], with the inverse depth interpolated
    there when the cell passes it. *)
Definition inside_inv_w (s0 s1 s2 : ScreenVertex) (x y : Z) : option float :=
  let bc := cell_bc s0 s1 s2 x y in
  if outside bc then None else Some (interpolated_inv_w s0 s1 s2 bc).

(** The cells a rasterized triangle covers: the cells of the bounding box
    that pass the inside test. *)
Definition coverage (W H : Z) (s0 s1 s2 : ScreenVertex) (x y : Z) : option float :=
  if in_box (bounding_box W H s0 s1 s2) x y then inside_inv_w s0 s1 s2 x y
  else None.

(** What drawing does to the pair stored in a cell, given the coverage of
    the cell. *)
Definition cover (ascii_char : ascii) (o : option float) (old : float * ascii)
  : float * ascii :=
  match o with
  | Some iw => depth_test ascii_char iw old
  | None => old
  end.

(** The cells two nested loops visit, row by row. *)
Definition cells (ys xs : list Z) : list (Z * Z) :=
  y ← ys; (fun x => (y, x)) <$> xs.

(** The same for a world-space triangle: nothing when it is culled or has a
    vertex behind the camera. *)
Definition footprint (W H : Z) (camera : Vec3) (mvp : Mat4) (t : Triangle)
  (x y : Z) : option float :=
  if back_facing camera t then None
  else match transform_vertices W H mvp t with
       | None => None
       | Some (s0, s1, s2) => coverage W H s0 s1 s2 x y
       end.

(** A triangle is degenerate when [barycentric] takes its early return. *)
Definition degenerate (a b c : Vec3) : bool :=
  SFltb (F32.to_double (F32.abs (barycentric_denom a b c))) F32.d1e_5.

(** A value that no comparison finds below zero: NaN, a zero of either
    sign, or a value with a clear sign bit. *)
Definition not_negative (x : float) : Prop :=
  match x with
  | S754_zero _ | S754_nan => True
  | S754_infinity s | S754_finite s _ _ => s = false
  end.

(** *** The statements of the specification that the code is compared with *)

(** Specification, back-face culling: the view vector runs from the first
    vertex toward the camera, and the triangle is discarded when its dot
    product with the normal is [>= 0]. *)
Definition spec_view_vector (camera : Vec3) (t : Triangle) : Vec3 :=
  let '(v0, _, _) := t in Vec3.subtract camera v0.

Definition spec_discarded (camera : Vec3) (t : Triangle) : bool :=
  F32.ge (Vec3.dot (face_normal t) (spec_view_vector camera t)) F32.zero.

(** Specification, glyph selection: [index = round(intensity * (rampLength
    - 1))], clamped.  [round_int] rounds to the nearest integer, halves
    away from zero. *)
Definition round_int (x : float) : Z :=
  match x with
  | S754_zero _ => 0
  | S754_finite s m e =>
      cond_Zopp s
        (match e with
         | Z0 => Zpos m
         | Zpos _ => Zpos m * 2 ^ e
         | Zneg p => (2 * Zpos m + 2 ^ Zpos p) / (2 * 2 ^ Zpos p)
         end)
  | _ => F32.INT_MIN
  end.

Definition spec_ascii_char (intensity : float) : ascii :=
  let last := Z.of_nat (String.length ascii_chars) - 1 in
  let index := round_int (F32.mul intensity (F32.of_int last)) in
  let index := Z.max 0 (Z.min last index) in
  match String.get (Z.to_nat index) ascii_chars with
  | Some c => c
  | None => "000"%char
  end.



(** *** Sample data *)

(** A triangle in the plane [z = 1] wound to face the camera, the same
    triangle with the opposite winding, and a floor triangle facing up. *)
Definition tri_front : Triangle :=
  (vec3_of_ints 0 0 1, vec3_of_ints 0 1 1, vec3_of_ints 1 0 1).
Definition tri_back : Triangle :=
  (vec3_of_ints 0 0 1, vec3_of_ints 1 0 1, vec3_of_ints 0 1 1).
Definition tri_floor : Triangle :=
  (vec3_of_ints 0 0 0, vec3_of_ints 0 0 1, vec3_of_ints 1 0 0).

(** A wall behind [tri_floor] as seen from the camera, and a floor triangle
    with its second vertex behind the camera. *)
Definition tri_wall : Triangle :=
  (vec3_of_ints (-3) (-3) 3, vec3_of_ints (-3) 3 3, vec3_of_ints 3 (-3) 3).
Definition tri_behind : Triangle :=
  (vec3_of_ints 0 0 0, vec3_of_ints 1 0 0, vec3_of_ints 0 0 (-9)).

(** Screen-space vertices with integer coordinates and [inv_w = 1]. *)
Definition screen_vertex (a b : Z) : ScreenVertex :=
  mkScreenVertex (mkVec3 (F32.of_int a) (F32.of_int b) F32.zero) F32.one.

Definition v_tiny : Vec3 := mkVec3 (F32.lit 1 (-70)) F32.zero F32.zero.

(** An environment in which every library call succeeds. *)
Definition env_ok : Env :=
  mkEnv 0 0 (fun _ => true) true (fun _ => true)
    EmptyString EmptyString EmptyString.

(** The number of entries of a buffer that satisfy [p]. *)
Fixpoint count_if {A : Type} (p : A -> bool) (l : list A) : Z :=
  match l with
  | [] => 0
  | a :: l' => (if p a then 1 else 0) + count_if p l'
  end.

Definition is_blank (c : ascii) : bool := Ascii.eqb c " ".
Definition is_drawn (d : float) : bool := F32.gt d F32.zero.

(** *** Classes of binary32 values *)

(** A finite non-zero value in the canonical representation of binary32
    (the representation every operation and every literal produces). *)
Definition valid (x : float) : bool :=
  match x with
  | S754_finite _ m e => bounded F32.prec F32.emax m e
  | _ => false
  end.

(** A valid finite value or [+0]. *)
Definition regular (x : float) : bool :=
  match x with
  | S754_zero s => negb s
  | _ => valid x
  end.

(** Neither NaN nor an infinity. *)
Definition is_finite (x : float) : bool :=
  match x with
  | S754_zero _ | S754_finite _ _ _ => true
  | _ => false
  end.

Definition regular3 (v : Vec3) : bool := regular (x3 v) && regular (y3 v) && regular (z3 v).
Definition finite3 (v : Vec3) : bool := is_finite (x3 v) && is_finite (y3 v) && is_finite (z3 v).
Definition regular4 (v : Vec4) : bool :=
  regular (x4 v) && regular (y4 v) && regular (z4 v) && regular (w4 v).

(** A value with a clear sign bit: NaN, [+0], a positive value or
    [+infinity]. *)
Definition sign_clear (x : float) : Prop :=
  match x with
  | S754_nan => True
  | S754_zero s | S754_infinity s | S754_finite s _ _ => s = false
  end.

(** The glyph is a character of the ramp. *)
Definition in_ramp (c : ascii) : Prop :=
  exists k : nat, String.get k ascii_chars = Some c.

(** What a cell can hold during a frame: the cleared pair, or a depth
    greater than zero. *)
Definition cleared_or_positive (p : float * ascii) : Prop :=
  p = (F32.zero, " "%char) \/ F32.gt (fst p) F32.zero = true.

(** ** The rest of [main]: start-up outcome and presentation *)

(** The lines a trace writes to the error stream. *)
Fixpoint stderr_lines (tr : list event) : list string :=
  match tr with
  | [] => []
  | Stderr line :: tr' => line :: stderr_lines tr'
  | Lib _ :: tr' => stderr_lines tr'
  end.

(** The six checks of the start-up, taken together. *)
Definition startup_ok (argv : list string) (env : Env) : bool :=
  (3 <=? Z.of_nat (length argv)) &&
  (0 <=? SDL_Init_result env) &&
  negb (TTF_Init_result env =? -1) &&
  TTF_OpenFont_ok env (argv_at argv 2) &&
  window_and_renderer_ok env &&
  LoadObj_ok env (argv_at argv 1).

(** The keys of [char_texture_cache]: the characters of the ramp whose
    [TTF_RenderText_Solid] call returned a surface. *)
Definition char_texture_cache (rendered : ascii -> bool) : list ascii :=
  List.filter rendered (list_ascii_of_string ascii_chars).

(** [char_texture_cache.count(c)] as a truth value. *)
Definition cache_count (cache : list ascii) (c : ascii) : bool :=
  existsb (Ascii.eqb c) cache.

(** One [SDL_RenderCopy]: the glyph drawn and its [dst_rect]. *)
Record Blit : Type := mkBlit {
  blit_glyph : ascii;
  blit_x : Z;
  blit_y : Z;
  blit_w : Z;
  blit_h : Z
}.

(** The body of the two presentation loops at cell [(x, y)]. *)
Definition present_cell (W font_width font_height : Z) (cache : list ascii)
  (cb : list ascii) (y x : Z) (out : list Blit) : option (list Blit) :=
  c ← read cb (y * W + x);
  if negb (Ascii.eqb c " ") && cache_count cache c
  then Some (out ++ [mkBlit c (x * font_width) (y * font_height) font_width font_height])
  else Some out.

(** Render the character buffer to the screen: the copies made, in
    order. *)
Definition present (W H font_width font_height : Z) (cache : list ascii)
  (cb : list ascii) : option (list Blit) :=
  for_each (range 0 (H - 1))
    (fun y => for_each (range 0 (W - 1))
                (present_cell W font_width font_height cache cb y))
    [].

(** The copies the cells of [cs] give rise to. *)
Definition blits_of (W font_width font_height : Z) (cache : list ascii)
  (cb : list ascii) (cs : list (Z * Z)) : list Blit :=
  c ← cs;
  match read cb (fst c * W + snd c) with
  | Some g =>
      if negb (Ascii.eqb g " ") && cache_count cache g
      then [mkBlit g (snd c * font_width) (fst c * font_height) font_width font_height]
      else []
  | None => []
  end.

(** ** Binary32 values as real numbers

    Used to bound the rounding error of [Vec3.length] and
    [Vec3.normalize]. *)

(** [2^e] as a real number. *)
Definition pow2 (e : Z) : R := powerRZ 2 e.
Arguments pow2 : simpl never.

(** The magnitude of a finite value. *)
Definition mag (x : float) : R :=
  match x with
  | S754_finite _ m e => (IZR (Z.pos m) * pow2 e)%R
  | _ => 0%R
  end.

(** A normal (not subnormal) finite value of binary32. *)
Definition normal (x : float) : Prop :=
  match x with
  | S754_finite _ m e => 2 ^ 23 <= Z.pos m < 2 ^ 24 /\ -149 <= e <= 104
  | _ => False
  end.

Definition sign_bit (x : float) : bool :=
  match x with
  | S754_zero s | S754_infinity s | S754_finite s _ _ => s
  | S754_nan => false
  end.



Definition is_zero (x : float) : bool :=
  match x with S754_zero _ => true | _ => false end.

(** A zero of either sign or a normal value. *)
Definition plain (x : float) : Prop := is_zero x = true \/ normal x.

(** Positive zero or a positive normal value. *)
Definition plain_pos (x : float) : Prop :=
  x = S754_zero false \/ (normal x /\ sign_bit x = false).

(** A zero, or a normal value of magnitude between [2^lo] and [2^hi]. *)
Definition within (lo hi : Z) (x : float) : Prop :=
  is_zero x = true \/ (normal x /\ (pow2 lo <= mag x <= pow2 hi)%R).





(** * Properties *)

(** ** Comparisons of binary32 values *)

Lemma SFcompare_antisym (a b : float) :
  SFcompare b a = CompOpp <$> SFcompare a b.
Proof.
  destruct a as [sa | sa | | sa ma ea], b as [sb | sb | | sb mb eb];
    simpl; try reflexivity;
    try (destruct sa; reflexivity); try (destruct sb; reflexivity);
    try (destruct sa, sb; reflexivity).
  destruct sa, sb; simpl; try reflexivity;
    rewrite (Z.compare_antisym ea eb);
    destruct (ea ?= eb); simpl; try reflexivity;
    change (Pos.compare_cont Eq mb ma) with (Pos.compare mb ma);
    change (Pos.compare_cont Eq ma mb) with (Pos.compare ma mb);
    rewrite (Pos.compare_antisym ma mb);
    destruct (ma ?= mb)%positive; reflexivity.
Qed.

Lemma gt_asym (a b : float) : F32.gt a b = true -> F32.gt b a = false.
Proof.
  unfold F32.gt, SFltb. rewrite (SFcompare_antisym a b).
  destruct (SFcompare a b) as [[]|]; simpl; congruence.
Qed.

Lemma gt_irrefl_eq (a b : float) :
  SFcompare a b = Some Eq -> F32.gt a b = false.
Proof.
  unfold F32.gt, SFltb. rewrite (SFcompare_antisym a b).
  intros ->. reflexivity.
Qed.

(** ** Signs *)

Lemma not_lt_zero_not_negative (x : float) :
  F32.lt x F32.zero = false -> not_negative x.
Proof.
  destruct x as [s | s | | s m e]; simpl; try exact (fun _ => I);
    destruct s; unfold F32.lt, SFltb; simpl; congruence.
Qed.

Lemma binary_round_aux_sign (s : bool) (m e : Z) (l : location) :
  match binary_round_aux F32.prec F32.emax s m e l with
  | S754_zero s' | S754_infinity s' | S754_finite s' _ _ => s' = s
  | S754_nan => True
  end.
Proof.
  unfold binary_round_aux.
  destruct (shr_fexp F32.prec F32.emax m e l) as [mrs' e'].
  destruct (shr_fexp F32.prec F32.emax _ e' loc_Exact) as [mrs'' e''].
  destruct (shr_m mrs''); try exact I; try reflexivity.
  destruct (e'' <=? F32.emax - F32.prec); reflexivity.
Qed.

Lemma binary_round_aux_not_negative (m e : Z) (l : location) :
  not_negative (binary_round_aux F32.prec F32.emax false m e l).
Proof.
  pose proof (binary_round_aux_sign false m e l) as H.
  destruct (binary_round_aux F32.prec F32.emax false m e l); simpl; auto.
Qed.

Lemma mul_not_negative (a b : float) :
  not_negative a -> not_negative b -> not_negative (F32.mul a b).
Proof.
  destruct a as [sa | sa | | sa ma ea], b as [sb | sb | | sb mb eb];
    simpl; intros Ha Hb; subst; simpl; try exact I; try reflexivity.
  apply binary_round_aux_not_negative.
Qed.

Lemma add_not_negative (a b : float) :
  not_negative a -> not_negative b -> not_negative (F32.add a b).
Proof.
  destruct a as [sa | sa | | sa ma ea], b as [sb | sb | | sb mb eb];
    simpl; intros Ha Hb; subst; simpl; try exact I; try reflexivity.
  - destruct sa, sb; exact I.
  - unfold F32.add, SFadd, binary_normalize. simpl cond_Zopp.
    destruct (shl_align ma ea (Z.min ea eb)) as [ma' ea'].
    destruct (shl_align mb eb (Z.min ea eb)) as [mb' eb'].
    simpl. unfold binary_round.
    destruct (shl_align _ _ _) as [mz ez].
    apply binary_round_aux_not_negative.
Qed.

Lemma inv_not_negative (w : float) :
  F32.le w F32.zero = false -> not_negative (F32.div F32.one w).
Proof.
  unfold F32.div, F32.one, F32.lit.
  change (binary_normalize F32.prec F32.emax 1 0 false)
    with (S754_finite false 8388608 (-23)).
  destruct w as [s | [] | | [] m e]; unfold F32.le, SFleb; simpl;
    try congruence; intros _; try exact I.
  destruct (SFdiv_core_binary _ _ _ _ _ _) as [[mz ez] lz].
  apply binary_round_aux_not_negative.
Qed.

Lemma gt_not_negative_gt_zero (a b : float) :
  not_negative b -> F32.gt a b = true -> F32.gt a F32.zero = true.
Proof.
  unfold F32.gt, SFltb.
  destruct b as [sb | sb | | sb mb eb], a as [sa | sa | | sa ma ea];
    simpl; intros Hb; subst; try congruence;
    try (destruct sa; simpl; congruence);
    try (destruct sb; simpl; congruence).
Qed.

(** ** Buffers and loops *)

Lemma read_in_range {A : Type} (v : list A) (i : Z) :
  0 <= i < Z.of_nat (length v) -> read v i = v !! Z.to_nat i.
Proof.
  intros Hi. unfold read.
  destruct (Z.leb_spec 0 i); [|lia].
  destruct (Z.ltb_spec i (Z.of_nat (length v))); [reflexivity|lia].
Qed.

Lemma write_in_range {A : Type} (v : list A) (i : Z) (a : A) :
  0 <= i < Z.of_nat (length v) -> write v i a = Some (<[Z.to_nat i := a]> v).
Proof.
  intros Hi. unfold write.
  destruct (Z.leb_spec 0 i); [|lia].
  destruct (Z.ltb_spec i (Z.of_nat (length v))); [reflexivity|lia].
Qed.

Lemma cell_index_bounds (W H x y : Z) :
  0 <= x < W -> 0 <= y < H -> 0 <= y * W + x < W * H.
Proof.
  intros Hx Hy.
  assert (0 <= y * W) by (apply Z.mul_nonneg_nonneg; lia).
  assert (y * W <= (H - 1) * W) by (apply Z.mul_le_mono_nonneg_r; lia).
  lia.
Qed.

Lemma cell_index_inj (W x y x' y' : Z) :
  0 <= x < W -> 0 <= x' < W -> y * W + x = y' * W + x' -> x = x' /\ y = y'.
Proof.
  intros Hx Hx' He.
  assert (Hy : y = y').
  { destruct (Z.lt_trichotomy y y') as [Hlt | [Heq | Hgt]]; [|exact Heq|].
    - assert ((y + 1) * W <= y' * W) by (apply Z.mul_le_mono_nonneg_r; lia). lia.
    - assert ((y' + 1) * W <= y * W) by (apply Z.mul_le_mono_nonneg_r; lia). lia. }
  subst y'. lia.
Qed.

Lemma pixel_at_sized (W H : Z) (fb : FrameBuffer) (x y : Z) :
  buffers_sized W H fb -> 0 <= x < W -> 0 <= y < H ->
  exists d c,
    depth_buffer fb !! Z.to_nat (y * W + x) = Some d /\
    char_buffer fb !! Z.to_nat (y * W + x) = Some c /\
    pixel_at W fb x y = Some (d, c).
Proof.
  intros [Hd Hc] Hx Hy.
  pose proof (cell_index_bounds W H x y Hx Hy) as Hi.
  assert (Hn : (Z.to_nat (y * W + x) < Z.to_nat (W * H))%nat) by lia.
  destruct (lookup_lt_is_Some_2 (depth_buffer fb) (Z.to_nat (y * W + x)))
    as [d Hld]; [lia|].
  destruct (lookup_lt_is_Some_2 (char_buffer fb) (Z.to_nat (y * W + x)))
    as [c Hlc]; [lia|].
  exists d, c. split; [exact Hld|]. split; [exact Hlc|].
  unfold pixel_at. rewrite !read_in_range by lia.
  rewrite Hld, Hlc. reflexivity.
Qed.

Lemma for_each_app {A S : Type} (l1 l2 : list A) (body : A -> S -> option S) (s : S) :
  for_each (l1 ++ l2) body s = (s' ← for_each l1 body s; for_each l2 body s').
Proof.
  revert s. induction l1 as [|a l1 IH]; intros s; simpl; [reflexivity|].
  destruct (body a s) as [s1|]; simpl; [apply IH | reflexivity].
Qed.

Lemma for_each_fmap {A B S : Type} (f : A -> B) (l : list A)
  (body : B -> S -> option S) (s : S) :
  for_each (f <$> l) body s = for_each l (fun a => body (f a)) s.
Proof.
  revert s. induction l as [|a l IH]; intros s; simpl; [reflexivity|].
  destruct (body (f a) s); simpl; [apply IH | reflexivity].
Qed.

Lemma for_each_nested {S : Type} (ys xs : list Z) (body : Z -> Z -> S -> option S) (s : S) :
  for_each ys (fun y => for_each xs (body y)) s =
  for_each (cells ys xs) (fun c => body (fst c) (snd c)) s.
Proof.
  revert s. induction ys as [|y ys IH]; intros s; [reflexivity|].
  change (cells (y :: ys) xs) with (((fun x => (y, x)) <$> xs) ++ cells ys xs).
  rewrite for_each_app, for_each_fmap. simpl.
  destruct (for_each xs (fun a => body y a) s) as [s1|]; simpl;
    [apply IH | reflexivity].
Qed.

Lemma elem_of_cells (ys xs : list Z) (y x : Z) :
  (y, x) ∈ cells ys xs <-> y ∈ ys /\ x ∈ xs.
Proof.
  unfold cells. rewrite list_elem_of_bind. split.
  - intros (y' & Hin & Hy'). apply list_elem_of_fmap in Hin as (x' & Heq & Hx').
    inversion Heq; subst. auto.
  - intros [Hy Hx]. exists y. split; [|exact Hy].
    apply list_elem_of_fmap. exists x. auto.
Qed.

Lemma NoDup_cells (ys xs : list Z) : NoDup ys -> NoDup xs -> NoDup (cells ys xs).
Proof.
  intros Hys Hxs. unfold cells. apply NoDup_bind; [| |exact Hys].
  - intros y1 y2 c _ _ H1 H2.
    apply list_elem_of_fmap in H1 as (x1 & -> & _).
    apply list_elem_of_fmap in H2 as (x2 & Heq & _). congruence.
  - intros y _. apply NoDup_fmap_2; [|exact Hxs].
    intros x1 x2 Heq. congruence.
Qed.

Lemma elem_of_range (lo hi k : Z) : k ∈ range lo hi <-> lo <= k <= hi.
Proof. unfold range. rewrite elem_of_seqZ. lia. Qed.

(** ** One cell, one triangle *)

Lemma shade_pixel_spec (W H : Z) (ch : ascii) (s0 s1 s2 : ScreenVertex)
  (x y : Z) (fb : FrameBuffer) :
  0 <= x < W -> 0 <= y < H -> buffers_sized W H fb ->
  exists fb',
    shade_pixel W ch s0 s1 s2 y x fb = Some fb' /\
    buffers_sized W H fb' /\
    pixel_at W fb' x y = cover ch (inside_inv_w s0 s1 s2 x y) <$> pixel_at W fb x y /\
    forall x' y', 0 <= x' < W -> 0 <= y' < H -> (y', x') <> (y, x) ->
      pixel_at W fb' x' y' = pixel_at W fb x' y'.
Proof.
  intros Hx Hy Hs.
  destruct (pixel_at_sized W H fb x y Hs Hx Hy) as (d & c & Hd & Hc & Hp).
  pose proof (cell_index_bounds W H x y Hx Hy) as Hi.
  destruct Hs as [Hld Hlc].
  unfold shade_pixel, inside_inv_w.
  destruct (outside (cell_bc s0 s1 s2 x y)) eqn:Hout.
  { exists fb. rewrite Hp. simpl. repeat split; auto. }
  rewrite read_in_range by lia. rewrite Hd. simpl.
  rewrite Hp. simpl. unfold depth_test. simpl.
  destruct (F32.gt _ d) eqn:Hgt.
  - rewrite !write_in_range by lia. simpl.
    eexists. split; [reflexivity|]. split; [|split].
    + split; simpl; rewrite length_insert; assumption.
    + unfold pixel_at. simpl. rewrite !read_in_range by (rewrite length_insert; lia).
      rewrite !list_lookup_insert_eq by lia. reflexivity.
    + intros x' y' Hx' Hy' Hne.
      pose proof (cell_index_bounds W H x' y' Hx' Hy') as Hi'.
      assert (Z.to_nat (y * W + x) <> Z.to_nat (y' * W + x')).
      { intros He. apply Z2Nat.inj in He; [|lia|lia].
        destruct (cell_index_inj W x y x' y' Hx Hx' He). congruence. }
      unfold pixel_at. simpl.
      rewrite !read_in_range by (try rewrite length_insert; lia).
      rewrite !list_lookup_insert_ne by assumption. reflexivity.
  - exists fb. repeat split; auto.
Qed.

Lemma for_each_cells (W H : Z) (ch : ascii) (s0 s1 s2 : ScreenVertex)
  (cs : list (Z * Z)) (fb : FrameBuffer) :
  NoDup cs ->
  (forall y x, (y, x) ∈ cs -> 0 <= x < W /\ 0 <= y < H) ->
  buffers_sized W H fb ->
  exists fb',
    for_each cs (fun c => shade_pixel W ch s0 s1 s2 (fst c) (snd c)) fb = Some fb' /\
    buffers_sized W H fb' /\
    forall x y, 0 <= x < W -> 0 <= y < H ->
      pixel_at W fb' x y =
      if bool_decide ((y, x) ∈ cs)
      then cover ch (inside_inv_w s0 s1 s2 x y) <$> pixel_at W fb x y
      else pixel_at W fb x y.
Proof.
  revert fb. induction cs as [|[y0 x0] cs IH]; intros fb Hnd Hin Hs.
  - exists fb. repeat split; auto; try apply Hs.
  - apply NoDup_cons in Hnd as [Hnotin Hnd].
    destruct (Hin y0 x0) as [Hx0 Hy0]; [left|].
    destruct (shade_pixel_spec W H ch s0 s1 s2 x0 y0 fb Hx0 Hy0 Hs)
      as (fb1 & Hstep & Hs1 & Hhere & Helse).
    destruct (IH fb1 Hnd) as (fb' & Hrest & Hs' & Hcells); [|exact Hs1|].
    { intros y x Hyx. apply Hin. right. exact Hyx. }
    exists fb'. split; [|split; [exact Hs'|]].
    { simpl. rewrite Hstep. simpl. exact Hrest. }
    intros x y Hx Hy. rewrite (Hcells x y Hx Hy).
    destruct (decide ((y, x) = (y0, x0))) as [Heq | Hne].
    + inversion Heq; subst.
      rewrite (bool_decide_eq_false_2 _ Hnotin).
      rewrite bool_decide_eq_true_2 by left. exact Hhere.
    + rewrite (Helse x y Hx Hy Hne).
      destruct (decide ((y, x) ∈ cs)) as [Hc | Hc].
      * rewrite (bool_decide_eq_true_2 _ Hc).
        rewrite bool_decide_eq_true_2 by (right; exact Hc). reflexivity.
      * rewrite (bool_decide_eq_false_2 _ Hc).
        rewrite bool_decide_eq_false_2; [reflexivity|].
        intros Hc'. apply elem_of_cons in Hc' as [Hc' | Hc']; contradiction.
Qed.

Lemma bounding_box_clamped (W H : Z) (s0 s1 s2 : ScreenVertex) :
  let '(minX, maxX, minY, maxY) := bounding_box W H s0 s1 s2 in
  0 <= minX /\ maxX <= W - 1 /\ 0 <= minY /\ maxY <= H - 1.
Proof. unfold bounding_box. lia. Qed.

Lemma in_box_iff (box : Z * Z * Z * Z) (x y : Z) :
  in_box box x y = true <->
  let '(minX, maxX, minY, maxY) := box in
  minX <= x <= maxX /\ minY <= y <= maxY.
Proof.
  destruct box as [[[minX maxX] minY] maxY]. unfold in_box.
  rewrite !andb_true_iff, !Z.leb_le. lia.
Qed.

(** The effect of rasterizing one triangle, cell by cell. *)
Lemma rasterize_spec (W H : Z) (ch : ascii) (s0 s1 s2 : ScreenVertex)
  (fb : FrameBuffer) :
  buffers_sized W H fb ->
  exists fb',
    rasterize W H ch s0 s1 s2 fb = Some fb' /\
    buffers_sized W H fb' /\
    forall x y, 0 <= x < W -> 0 <= y < H ->
      pixel_at W fb' x y = cover ch (coverage W H s0 s1 s2 x y) <$> pixel_at W fb x y.
Proof.
  intros Hs. unfold rasterize, coverage.
  pose proof (bounding_box_clamped W H s0 s1 s2) as Hbox.
  destruct (bounding_box W H s0 s1 s2) as [[[minX maxX] minY] maxY] eqn:Ebox.
  rewrite for_each_nested.
  destruct (for_each_cells W H ch s0 s1 s2
              (cells (range minY maxY) (range minX maxX)) fb)
    as (fb' & Hrun & Hs' & Hcells).
  - apply NoDup_cells; apply NoDup_seqZ.
  - intros y x Hyx. apply elem_of_cells in Hyx as [Hy Hx].
    apply elem_of_range in Hy, Hx. lia.
  - exact Hs.
  - exists fb'. split; [exact Hrun|]. split; [exact Hs'|].
    intros x y Hx Hy. rewrite (Hcells x y Hx Hy).
    destruct (in_box (minX, maxX, minY, maxY) x y) eqn:Hin.
    + apply in_box_iff in Hin. rewrite bool_decide_eq_true_2; [reflexivity|].
      apply elem_of_cells. rewrite !elem_of_range. lia.
    + rewrite bool_decide_eq_false_2.
      * destruct (pixel_at W fb x y) as [[d c]|]; reflexivity.
      * intros Hc. apply elem_of_cells in Hc. rewrite !elem_of_range in Hc.
        assert (in_box (minX, maxX, minY, maxY) x y = true) by (apply in_box_iff; lia).
        congruence.
Qed.

Lemma fmap_cover_None (ch : ascii) (p : option (float * ascii)) :
  cover ch None <$> p = p.
Proof. destruct p as [[d c]|]; reflexivity. Qed.

(** The effect of one iteration of the face loop, cell by cell. *)
Lemma draw_triangle_spec (W H : Z) (camera light : Vec3) (mvp : Mat4)
  (t : Triangle) (fb : FrameBuffer) :
  buffers_sized W H fb ->
  exists fb',
    draw_triangle W H camera light mvp t fb = Some fb' /\
    buffers_sized W H fb' /\
    forall x y, 0 <= x < W -> 0 <= y < H ->
      pixel_at W fb' x y =
      cover (flat_glyph light t) (footprint W H camera mvp t x y) <$> pixel_at W fb x y.
Proof.
  intros Hs. unfold draw_triangle, footprint.
  destruct (back_facing camera t).
  { exists fb. repeat split; try apply Hs. intros. now rewrite fmap_cover_None. }
  destruct (transform_vertices W H mvp t) as [[[s0 s1] s2]|].
  - apply rasterize_spec. exact Hs.
  - exists fb. repeat split; try apply Hs. intros. now rewrite fmap_cover_None.
Qed.

Lemma clear_sized (W H : Z) : buffers_sized W H (clear W H).
Proof. split; simpl; apply length_replicate. Qed.

Lemma pixel_at_clear (W H x y : Z) :
  0 <= x < W -> 0 <= y < H ->
  pixel_at W (clear W H) x y = Some (F32.zero, " "%char).
Proof.
  intros Hx Hy. pose proof (cell_index_bounds W H x y Hx Hy) as Hi.
  unfold pixel_at, clear. simpl.
  rewrite !read_in_range by (rewrite length_replicate; lia).
  rewrite !lookup_replicate_2 by lia. reflexivity.
Qed.

(** ** Inverse depths are not negative *)

Lemma transform_vertex_inv_w (W H : Z) (mvp : Mat4) (v : Vec3) (s : ScreenVertex) :
  transform_vertex W H mvp v = Some s -> not_negative (inv_w s).
Proof.
  unfold transform_vertex.
  destruct (F32.le _ F32.zero) eqn:Hle; [discriminate|].
  intros [= <-]. simpl. apply inv_not_negative. exact Hle.
Qed.

Lemma inside_inv_w_not_negative (s0 s1 s2 : ScreenVertex) (x y : Z) (iw : float) :
  not_negative (inv_w s0) -> not_negative (inv_w s1) -> not_negative (inv_w s2) ->
  inside_inv_w s0 s1 s2 x y = Some iw -> not_negative iw.
Proof.
  intros H0 H1 H2. unfold inside_inv_w, outside.
  destruct (F32.lt (x3 _) F32.zero) eqn:Ex; [discriminate|].
  destruct (F32.lt (y3 _) F32.zero) eqn:Ey; [discriminate|].
  destruct (F32.lt (z3 _) F32.zero) eqn:Ez; [discriminate|].
  simpl. intros [= <-]. unfold interpolated_inv_w.
  repeat apply add_not_negative; apply mul_not_negative;
    auto using not_lt_zero_not_negative.
Qed.

Lemma footprint_not_negative (W H : Z) (camera : Vec3) (mvp : Mat4)
  (t : Triangle) (x y : Z) (iw : float) :
  footprint W H camera mvp t x y = Some iw -> not_negative iw.
Proof.
  unfold footprint, coverage, transform_vertices.
  destruct (back_facing camera t); [discriminate|].
  destruct t as [[v0 v1] v2].
  destruct (transform_vertex W H mvp v0) as [s0|] eqn:E0; [|discriminate].
  destruct (transform_vertex W H mvp v1) as [s1|] eqn:E1; [|discriminate].
  destruct (transform_vertex W H mvp v2) as [s2|] eqn:E2; [|discriminate].
  cbn -[in_box bounding_box inside_inv_w]. destruct (in_box _ x y); [|discriminate].
  apply inside_inv_w_not_negative; eauto using transform_vertex_inv_w.
Qed.

(** ** Powers of two *)








(** ** Rounding to binary32, in integers *)











(** ** Rounding error, in real numbers *)















(** ** Accumulated error *)















(** ** Operations on zeros and normal values *)

Lemma plain_pos_plain (x : float) : plain_pos x -> plain x.
Proof. intros [-> | [H _]]; [left; reflexivity | right; exact H]. Qed.













(** ** The length of a vector and normalization *)


Lemma within_plain (lo hi : Z) (x : float) : within lo hi x -> plain x.
Proof. intros [Hz | [Hn _]]; [left; exact Hz | right; exact Hn]. Qed.


























(** * Main results *)

(** ** Back-face culling *)

(** C1 (as the code has it).  The face normal is
    [normalize(cross(v1 - v0, v2 - v0))]; the view vector is the normalized
    vector from the camera to the first vertex, [normalize(v0 - camera)].
    The triangle is discarded by the culling test exactly when
    [dot(normal, view) >= 0]: then both buffers are returned unchanged and
    the triangle covers no cell; otherwise the triangle goes on to shading,
    the clip-space transform and rasterization. *)
Theorem C1_back_face_discarded (W H : Z) (camera light : Vec3) (mvp : Mat4)
  (v0 v1 v2 : Vec3) (fb : FrameBuffer) :
  let normal := Vec3.normalize (Vec3.cross (Vec3.subtract v1 v0) (Vec3.subtract v2 v0)) in
  let view := Vec3.normalize (Vec3.subtract v0 camera) in
  (F32.ge (Vec3.dot normal view) F32.zero = true ->
   draw_triangle W H camera light mvp (v0, v1, v2) fb = Some fb /\
   forall x y, footprint W H camera mvp (v0, v1, v2) x y = None) /\
  (F32.ge (Vec3.dot normal view) F32.zero = false ->
   draw_triangle W H camera light mvp (v0, v1, v2) fb =
   match transform_vertices W H mvp (v0, v1, v2) with
   | None => Some fb
   | Some (s0, s1, s2) => rasterize W H (flat_glyph light (v0, v1, v2)) s0 s1 s2 fb
   end).
Proof.
  intros normal view. split; intros Hge.
  - assert (Hb : back_facing camera (v0, v1, v2) = true) by exact Hge.
    unfold draw_triangle, footprint. rewrite Hb. split; reflexivity.
  - assert (Hb : back_facing camera (v0, v1, v2) = false) by exact Hge.
    unfold draw_triangle. rewrite Hb. reflexivity.
Qed.

Lemma C1_back_face_discarded_witness :
  draw_triangle SCREEN_WIDTH SCREEN_HEIGHT camera_pos light_direction mvp0
    tri_back (clear SCREEN_WIDTH SCREEN_HEIGHT)
  = Some (clear SCREEN_WIDTH SCREEN_HEIGHT) /\
  forall x y, footprint SCREEN_WIDTH SCREEN_HEIGHT camera_pos mvp0 tri_back x y = None.
Proof.
  apply (proj1 (C1_back_face_discarded SCREEN_WIDTH SCREEN_HEIGHT camera_pos
                  light_direction mvp0
                  (vec3_of_ints 0 0 1) (vec3_of_ints 1 0 1) (vec3_of_ints 0 1 1)
                  (clear SCREEN_WIDTH SCREEN_HEIGHT))).
  vm_compute. reflexivity.
Defined.

(** C1 as the specification words it fails: with the view vector taken from
    the first vertex toward the camera, [tri_floor] has
    [dot(normal, view) >= 0] and should be discarded, yet the code does not
    cull it and draws 22 cells; [tri_back] has a negative dot product and
    should be drawn, yet the code culls it. *)
Lemma C1_counterexample :
  spec_discarded camera_pos tri_floor = true /\
  back_facing camera_pos tri_floor = false /\
  (exists fb, render_frame mvp0 [tri_floor] = Some fb /\
              count_if is_drawn (depth_buffer fb) = 22) /\
  spec_discarded camera_pos tri_back = false /\
  back_facing camera_pos tri_back = true.
Proof.
  split; [vm_compute; reflexivity|].
  split; [vm_compute; reflexivity|].
  split; [|split; vm_compute; reflexivity].
  destruct (render_frame mvp0 [tri_floor]) as [fb|] eqn:E;
    [|vm_compute in E; discriminate].
  exists fb. split; [reflexivity|].
  assert (Hc : (fb' ← render_frame mvp0 [tri_floor];
                Some (count_if is_drawn (depth_buffer fb'))) = Some 22)
    by (vm_compute; reflexivity).
  rewrite E in Hc. simpl in Hc. congruence.
Qed.

(** ** Depth test *)

(** C2.  At every cell a rasterized triangle covers, the stored depth and
    glyph are replaced by the interpolated [inv_w] and the triangle's glyph
    when the interpolated [inv_w] is strictly greater than the stored
    depth, and both are left as they were otherwise; in particular when the
    two values compare equal. *)
Theorem C2_depth_test_strict (W H : Z) (ch : ascii) (s0 s1 s2 : ScreenVertex)
  (fb : FrameBuffer) (x y : Z) (iw d : float) (c : ascii) :
  buffers_sized W H fb ->
  0 <= x < W -> 0 <= y < H ->
  coverage W H s0 s1 s2 x y = Some iw ->
  pixel_at W fb x y = Some (d, c) ->
  exists fb',
    rasterize W H ch s0 s1 s2 fb = Some fb' /\
    (F32.gt iw d = true -> pixel_at W fb' x y = Some (iw, ch)) /\
    (F32.gt iw d = false -> pixel_at W fb' x y = Some (d, c)) /\
    (SFcompare iw d = Some Eq -> pixel_at W fb' x y = Some (d, c)).
Proof.
  intros Hs Hx Hy Hcov Hold.
  destruct (rasterize_spec W H ch s0 s1 s2 fb Hs) as (fb' & Hrun & _ & Hcells).
  exists fb'. split; [exact Hrun|].
  specialize (Hcells x y Hx Hy). rewrite Hcov, Hold in Hcells.
  simpl in Hcells. unfold depth_test in Hcells. simpl in Hcells.
  assert (Hfalse : F32.gt iw d = false -> pixel_at W fb' x y = Some (d, c)).
  { intros Hgt. rewrite Hgt in Hcells. exact Hcells. }
  split; [|split].
  - intros Hgt. rewrite Hgt in Hcells. exact Hcells.
  - exact Hfalse.
  - intros Heq. apply Hfalse. apply gt_irrefl_eq. exact Heq.
Qed.

Lemma C2_depth_test_strict_witness :
  exists fb',
    rasterize 16 16 "#" (screen_vertex 2 2) (screen_vertex 12 2) (screen_vertex 2 12)
      (clear 16 16) = Some fb' /\
    (F32.gt F32.one F32.zero = true -> pixel_at 16 fb' 4 4 = Some (F32.one, "#"%char)) /\
    (F32.gt F32.one F32.zero = false -> pixel_at 16 fb' 4 4 = Some (F32.zero, " "%char)) /\
    (SFcompare F32.one F32.zero = Some Eq ->
     pixel_at 16 fb' 4 4 = Some (F32.zero, " "%char)).
Proof.
  apply (C2_depth_test_strict 16 16 "#" (screen_vertex 2 2) (screen_vertex 12 2)
           (screen_vertex 2 12) (clear 16 16) 4 4 F32.one F32.zero " ").
  - apply clear_sized.
  - lia.
  - lia.
  - vm_compute. reflexivity.
  - vm_compute. reflexivity.
Defined.

(** ** Draw order *)

(** C3.  When two triangles both cover a cell and one interpolates a
    strictly greater [inv_w] there, drawing the two into freshly cleared
    buffers leaves, in either order, the glyph (and the [inv_w]) of that
    nearer triangle in the cell. *)
Theorem C3_draw_order_independent (W H : Z) (camera light : Vec3) (mvp : Mat4)
  (t1 t2 : Triangle) (x y : Z) (a b : float) :
  0 <= x < W -> 0 <= y < H ->
  footprint W H camera mvp t1 x y = Some a ->
  footprint W H camera mvp t2 x y = Some b ->
  F32.gt a b = true ->
  exists fb12 fb21,
    draw_triangles W H camera light mvp [t1; t2] (clear W H) = Some fb12 /\
    draw_triangles W H camera light mvp [t2; t1] (clear W H) = Some fb21 /\
    pixel_at W fb12 x y = Some (a, flat_glyph light t1) /\
    pixel_at W fb21 x y = Some (a, flat_glyph light t1).
Proof.
  intros Hx Hy Ha Hb Hgt.
  assert (Ha0 : F32.gt a F32.zero = true).
  { apply (gt_not_negative_gt_zero a b); [|exact Hgt].
    apply (footprint_not_negative W H camera mvp t2 x y b Hb). }
  pose proof (gt_asym a b Hgt) as Hba.
  destruct (draw_triangle_spec W H camera light mvp t1 (clear W H) (clear_sized W H))
    as (f1 & E1 & S1 & C1).
  destruct (draw_triangle_spec W H camera light mvp t2 f1 S1)
    as (f12 & E12 & _ & C12).
  destruct (draw_triangle_spec W H camera light mvp t2 (clear W H) (clear_sized W H))
    as (f2 & E2 & S2 & C2).
  destruct (draw_triangle_spec W H camera light mvp t1 f2 S2)
    as (f21 & E21 & _ & C21).
  exists f12, f21. unfold draw_triangles. simpl.
  rewrite E1, E2. simpl. rewrite E12, E21. simpl.
  split; [reflexivity|]. split; [reflexivity|].
  specialize (C1 x y Hx Hy). specialize (C12 x y Hx Hy).
  specialize (C2 x y Hx Hy). specialize (C21 x y Hx Hy).
  rewrite (pixel_at_clear W H x y Hx Hy) in C1, C2.
  rewrite Ha in C1, C21. rewrite Hb in C2, C12.
  simpl in C1, C2. unfold depth_test in C1, C2. simpl in C1, C2.
  rewrite Ha0 in C1. rewrite C1 in C12. rewrite C2 in C21.
  simpl in C12, C21. unfold depth_test in C12, C21. simpl in C12.
  rewrite Hba in C12. split; [exact C12|].
  destruct (F32.gt b F32.zero); simpl in C21.
  - rewrite Hgt in C21. exact C21.
  - rewrite Ha0 in C21. exact C21.
Qed.

Lemma C3_draw_order_independent_witness :
  exists fb12 fb21,
    draw_triangles SCREEN_WIDTH SCREEN_HEIGHT camera_pos light_direction mvp0
      [tri_floor; tri_wall] (clear SCREEN_WIDTH SCREEN_HEIGHT) = Some fb12 /\
    draw_triangles SCREEN_WIDTH SCREEN_HEIGHT camera_pos light_direction mvp0
      [tri_wall; tri_floor] (clear SCREEN_WIDTH SCREEN_HEIGHT) = Some fb21 /\
    pixel_at SCREEN_WIDTH fb12 75 44
      = Some (S754_finite false 12117024 (-26), flat_glyph light_direction tri_floor) /\
    pixel_at SCREEN_WIDTH fb21 75 44
      = Some (S754_finite false 12117024 (-26), flat_glyph light_direction tri_floor).
Proof.
  apply (C3_draw_order_independent SCREEN_WIDTH SCREEN_HEIGHT camera_pos
           light_direction mvp0 tri_floor tri_wall 75 44
           (S754_finite false 12117024 (-26)) (S754_finite false 15646514 (-27))).
  - unfold SCREEN_WIDTH. lia.
  - unfold SCREEN_HEIGHT. lia.
  - vm_compute. reflexivity.
  - vm_compute. reflexivity.
  - vm_compute. reflexivity.
Defined.

(** ** Vertices behind the camera *)

Lemma transform_vertex_behind (W H : Z) (mvp : Mat4) (v : Vec3) :
  F32.le (clip_w mvp v) F32.zero = true -> transform_vertex W H mvp v = None.
Proof. unfold clip_w, transform_vertex. intros ->. reflexivity. Qed.

(** C6.  When the clip-space [w] of any of the three vertices is [<= 0],
    the triangle is discarded as a whole: the depth buffer and the glyph
    buffer are returned unchanged and the triangle covers no cell. *)
Theorem C6_behind_camera_discarded (W H : Z) (camera light : Vec3) (mvp : Mat4)
  (v0 v1 v2 : Vec3) (fb : FrameBuffer) :
  F32.le (clip_w mvp v0) F32.zero = true \/
  F32.le (clip_w mvp v1) F32.zero = true \/
  F32.le (clip_w mvp v2) F32.zero = true ->
  draw_triangle W H camera light mvp (v0, v1, v2) fb = Some fb /\
  forall x y, footprint W H camera mvp (v0, v1, v2) x y = None.
Proof.
  intros Hw.
  assert (Htv : transform_vertices W H mvp (v0, v1, v2) = None).
  { unfold transform_vertices.
    destruct Hw as [Hw | [Hw | Hw]];
      rewrite (transform_vertex_behind W H mvp _ Hw);
      repeat (destruct (transform_vertex W H mvp _)); reflexivity. }
  unfold draw_triangle, footprint. rewrite Htv.
  destruct (back_facing camera (v0, v1, v2)); split; reflexivity.
Qed.

Lemma C6_behind_camera_discarded_witness :
  back_facing camera_pos tri_behind = false /\
  draw_triangle SCREEN_WIDTH SCREEN_HEIGHT camera_pos light_direction mvp0
    tri_behind (clear SCREEN_WIDTH SCREEN_HEIGHT)
  = Some (clear SCREEN_WIDTH SCREEN_HEIGHT) /\
  forall x y, footprint SCREEN_WIDTH SCREEN_HEIGHT camera_pos mvp0 tri_behind x y = None.
Proof.
  split; [vm_compute; reflexivity|].
  apply (C6_behind_camera_discarded SCREEN_WIDTH SCREEN_HEIGHT camera_pos
           light_direction mvp0
           (vec3_of_ints 0 0 0) (vec3_of_ints 1 0 0) (vec3_of_ints 0 0 (-9))).
  right. right. vm_compute. reflexivity.
Defined.

(** ** Degenerate triangles *)

Lemma barycentric_degenerate (p a b c : Vec3) :
  degenerate a b c = true ->
  barycentric p a b c = mkVec3 minus_one minus_one minus_one.
Proof.
  unfold degenerate, barycentric_denom, barycentric. cbv zeta.
  intros ->. reflexivity.
Qed.

Lemma for_each_skip {A S : Type} (l : list A) (body : A -> S -> option S) (s : S) :
  (forall a, a ∈ l -> body a s = Some s) -> for_each l body s = Some s.
Proof.
  induction l as [|a l IH]; intros Hb; simpl; [reflexivity|].
  rewrite (Hb a) by left. simpl. apply IH.
  intros a' Ha'. apply Hb. right. exact Ha'.
Qed.

(** C8.  For a triangle whose barycentric denominator is below the
    threshold in absolute value, [barycentric] returns [(-1, -1, -1)] at
    every query point; every cell fails the inside test, so the triangle
    covers no cell and rasterizing it returns both buffers unchanged,
    without any failure. *)
Theorem C8_degenerate_skipped (W H : Z) (ch : ascii) (s0 s1 s2 : ScreenVertex)
  (fb : FrameBuffer) :
  degenerate (v_screen s0) (v_screen s1) (v_screen s2) = true ->
  (forall p, barycentric p (v_screen s0) (v_screen s1) (v_screen s2)
             = mkVec3 minus_one minus_one minus_one) /\
  (forall x y, outside (cell_bc s0 s1 s2 x y) = true) /\
  (forall x y, coverage W H s0 s1 s2 x y = None) /\
  rasterize W H ch s0 s1 s2 fb = Some fb.
Proof.
  intros Hdeg.
  assert (Hbc : forall p, barycentric p (v_screen s0) (v_screen s1) (v_screen s2)
                          = mkVec3 minus_one minus_one minus_one)
    by (intros p; apply barycentric_degenerate; exact Hdeg).
  assert (Hout : forall x y, outside (cell_bc s0 s1 s2 x y) = true).
  { intros x y. unfold cell_bc. rewrite Hbc. reflexivity. }
  split; [exact Hbc|]. split; [exact Hout|]. split.
  - intros x y. unfold coverage, inside_inv_w. rewrite Hout.
    destruct (in_box _ x y); reflexivity.
  - unfold rasterize.
    destruct (bounding_box W H s0 s1 s2) as [[[minX maxX] minY] maxY].
    apply for_each_skip. intros y _. apply for_each_skip. intros x _.
    unfold shade_pixel. rewrite Hout. reflexivity.
Qed.

Lemma C8_degenerate_skipped_witness :
  (forall p, barycentric p (v_screen (screen_vertex 2 2)) (v_screen (screen_vertex 12 2))
               (v_screen (screen_vertex 7 2))
             = mkVec3 minus_one minus_one minus_one) /\
  (forall x y, outside (cell_bc (screen_vertex 2 2) (screen_vertex 12 2)
                          (screen_vertex 7 2) x y) = true) /\
  (forall x y, coverage 16 16 (screen_vertex 2 2) (screen_vertex 12 2)
                 (screen_vertex 7 2) x y = None) /\
  rasterize 16 16 "#" (screen_vertex 2 2) (screen_vertex 12 2) (screen_vertex 7 2)
    (clear 16 16) = Some (clear 16 16).
Proof.
  apply (C8_degenerate_skipped 16 16 "#" (screen_vertex 2 2) (screen_vertex 12 2)
           (screen_vertex 7 2) (clear 16 16)).
  vm_compute. reflexivity.
Defined.

(** ** Bounds *)

(** C10.  The bounding box is clamped to [0 <= minX], [maxX <= width - 1],
    [0 <= minY], [maxY <= height - 1]; every index [y * width + x] of the
    pixel loops lies in [[0, width * height)]; and on buffers of that size
    rasterizing a triangle performs no access outside a buffer. *)
Theorem C10_accesses_in_bounds (W H : Z) (ch : ascii) (s0 s1 s2 : ScreenVertex)
  (fb : FrameBuffer) :
  0 < W -> 0 < H -> buffers_sized W H fb ->
  (let '(minX, maxX, minY, maxY) := bounding_box W H s0 s1 s2 in
   0 <= minX /\ maxX <= W - 1 /\ 0 <= minY /\ maxY <= H - 1 /\
   forall x y, x ∈ range minX maxX -> y ∈ range minY maxY ->
     0 <= y * W + x < W * H) /\
  exists fb', rasterize W H ch s0 s1 s2 fb = Some fb' /\ buffers_sized W H fb'.
Proof.
  intros HW HH Hs. split.
  - pose proof (bounding_box_clamped W H s0 s1 s2) as Hbox.
    destruct (bounding_box W H s0 s1 s2) as [[[minX maxX] minY] maxY].
    destruct Hbox as (H1 & H2 & H3 & H4). repeat (split; [assumption|]).
    intros x y Hx Hy. apply elem_of_range in Hx, Hy.
    apply cell_index_bounds; lia.
  - destruct (rasterize_spec W H ch s0 s1 s2 fb Hs) as (fb' & Hrun & Hs' & _).
    exists fb'. split; assumption.
Qed.

Lemma C10_accesses_in_bounds_witness :
  (let '(minX, maxX, minY, maxY) :=
     bounding_box 16 16 (screen_vertex (-5) 2) (screen_vertex 40 2) (screen_vertex 2 30) in
   0 <= minX /\ maxX <= 16 - 1 /\ 0 <= minY /\ maxY <= 16 - 1 /\
   forall x y, x ∈ range minX maxX -> y ∈ range minY maxY ->
     0 <= y * 16 + x < 16 * 16) /\
  exists fb',
    rasterize 16 16 "#" (screen_vertex (-5) 2) (screen_vertex 40 2) (screen_vertex 2 30)
      (clear 16 16) = Some fb' /\ buffers_sized 16 16 fb'.
Proof.
  apply (C10_accesses_in_bounds 16 16 "#" (screen_vertex (-5) 2) (screen_vertex 40 2)
           (screen_vertex 2 30) (clear 16 16)).
  - lia.
  - lia.
  - apply clear_sized.
Defined.

(** ** Glyph selection *)

Lemma ramp_index (k : Z) :
  0 <= k <= 9 ->
  exists c, String.get (Z.to_nat k) ascii_chars = Some c.
Proof.
  intros Hk.
  assert (Hn : (Z.to_nat k <= 9)%nat) by lia.
  destruct (Z.to_nat k) as [|[|[|[|[|[|[|[|[|[|n]]]]]]]]]];
    try (eexists; reflexivity). lia.
Qed.

(** C4 (as the code has it).  The glyph is the character of the ramp
    [" .:-=+*#%@"] at the index obtained by converting
    [intensity * (rampLength - 1)] to [int], that is by truncation toward
    zero and not by rounding, clamped to [[0, rampLength - 1]]; the index
    is always a valid position of the ramp, and intensity 1 gives ['@']. *)
Theorem C4_glyph_by_truncation (intensity : float) :
  let product := F32.mul intensity (F32.of_int 9) in
  let k := Z.max 0 (Z.min 9 (F32.to_int product)) in
  0 <= k <= 9 /\
  String.get (Z.to_nat k) ascii_chars = Some (get_ascii_char intensity) /\
  (forall v, F32.trunc product = Some v -> F32.INT_MIN <= v <= F32.INT_MAX ->
             k = Z.max 0 (Z.min 9 v)) /\
  get_ascii_char F32.one = "@"%char.
Proof.
  intros product k.
  assert (Hk : 0 <= k <= 9) by (unfold k; lia).
  split; [exact Hk|]. split; [|split].
  - destruct (ramp_index k Hk) as [c Hc]. rewrite Hc.
    unfold get_ascii_char.
    change (Z.of_nat (String.length ascii_chars) - 1) with 9.
    fold product. fold k. rewrite Hc. reflexivity.
  - intros v Hv Hr. unfold k, F32.to_int. rewrite Hv.
    destruct (Z.leb_spec F32.INT_MIN v); [|lia].
    destruct (Z.leb_spec v F32.INT_MAX); [reflexivity|lia].
  - vm_compute. reflexivity.
Qed.

(** C4 as the specification words it fails: at intensity 0.75 the product
    is 6.75; rounding gives index 7 and the glyph ['#'], the code truncates
    to index 6 and returns ['*']. *)
Lemma C4_counterexample :
  spec_ascii_char (F32.lit 3 (-2)) = "#"%char /\
  get_ascii_char (F32.lit 3 (-2)) = "*"%char /\
  get_ascii_char (F32.lit 3 (-2)) <> spec_ascii_char (F32.lit 3 (-2)).
Proof.
  split; [vm_compute; reflexivity|].
  split; [vm_compute; reflexivity|].
  vm_compute. discriminate.
Qed.

(** ** Ambient floor *)

Lemma flat_intensity_floor (light : Vec3) (t : Triangle) :
  F32.lt (flat_intensity light t) F32.tenth = false.
Proof.
  unfold flat_intensity, F32.max.
  destruct (F32.lt F32.tenth _) eqn:E.
  - apply gt_asym. exact E.
  - reflexivity.
Qed.

(** C5 (evaluation of the code).  The intensity is clamped to the floor
    [0.1f] before the glyph is chosen, but the glyph chosen at the floor is
    the blank: [0.1f * 9] truncates to index 0.  [tri_front] passes
    back-face culling and gets the floor intensity; it is drawn into 49
    cells of the depth buffer, each with the blank glyph, so that the glyph
    buffer stays entirely blank. *)
Theorem C5_ambient_floor_is_blank :
  (forall light t, F32.lt (flat_intensity light t) F32.tenth = false) /\
  get_ascii_char F32.tenth = " "%char /\
  back_facing camera_pos tri_front = false /\
  flat_intensity light_direction tri_front = F32.tenth /\
  flat_glyph light_direction tri_front = " "%char /\
  exists fb, render_frame mvp0 [tri_front] = Some fb /\
             count_if is_drawn (depth_buffer fb) = 49 /\
             count_if is_blank (char_buffer fb) = SCREEN_WIDTH * SCREEN_HEIGHT.
Proof.
  split; [exact flat_intensity_floor|].
  split; [vm_compute; reflexivity|].
  split; [vm_compute; reflexivity|].
  split; [vm_compute; reflexivity|].
  split; [vm_compute; reflexivity|].
  destruct (render_frame mvp0 [tri_front]) as [fb|] eqn:E;
    [|vm_compute in E; discriminate].
  exists fb. split; [reflexivity|].
  assert (Hc : (fb' ← render_frame mvp0 [tri_front];
                Some (count_if is_drawn (depth_buffer fb'),
                      count_if is_blank (char_buffer fb')))
               = Some (49, SCREEN_WIDTH * SCREEN_HEIGHT))
    by (vm_compute; reflexivity).
  rewrite E in Hc. simpl in Hc. split; congruence.
Qed.

(** ** Normalization *)






Lemma normalize_v_tiny :
  Vec3.length v_tiny = F32.lit 1 (-70) /\
  Vec3.normalize v_tiny = mkVec3 F32.one F32.zero F32.zero.
Proof. split; vm_compute; reflexivity. Qed.


(** ** Command line *)

(** C9 (as the code has it).  With fewer than two arguments after the
    program name, [main] writes the usage line to the error stream and
    returns 1 without calling any library; with two or more, the argument
    check passes and initialisation starts with the first two arguments:
    further arguments are ignored. *)
Theorem C9_usage_when_arguments_missing (argv : list string) (env : Env) :
  (Z.of_nat (length argv) < 3 ->
   main argv env = ([Stderr (usage argv)], Return 1)) /\
  (3 <= Z.of_nat (length argv) ->
   main argv env = main_init (argv_at argv 1) (argv_at argv 2) env).
Proof.
  unfold main. split; intros Hn.
  - destruct (Z.ltb_spec (Z.of_nat (length argv)) 3); [reflexivity|lia].
  - destruct (Z.ltb_spec (Z.of_nat (length argv)) 3); [lia|reflexivity].
Qed.

Lemma C9_usage_when_arguments_missing_witness :
  main ["ascii"; "model.obj"]%string env_ok
  = ([Stderr "Usage: ascii <path_to_obj_file> <path_to_font_file>"], Return 1).
Proof.
  apply (C9_usage_when_arguments_missing ["ascii"; "model.obj"]%string env_ok).
  simpl. lia.
Defined.

(** C9 as the specification words it fails: an invocation with one
    argument more than the two accepted is not rejected; no usage line is
    written and the main loop is entered. *)
Lemma C9_counterexample :
  main ["ascii"; "model.obj"; "font.ttf"; "extra"]%string env_ok
  = ([Lib "SDL_Init"; Lib "TTF_Init"; Lib "TTF_OpenFont"; Lib "TTF_SizeText";
      Lib "SDL_CreateWindow"; Lib "SDL_CreateRenderer"; Lib "tinyobj::LoadObj"],
     MainLoop "model.obj" "font.ttf").
Proof. reflexivity. Qed.

(** * Further properties of the math library, the frame and [main] *)

(** ** Exact products and sums *)

Lemma mul_comm (a b : float) : F32.mul a b = F32.mul b a.
Proof.
  destruct a as [sa | sa | | sa ma ea], b as [sb | sb | | sb mb eb];
    unfold F32.mul; simpl; try reflexivity;
    try (rewrite (xorb_comm sa sb); reflexivity).
  rewrite (xorb_comm sa sb), (Pos.mul_comm ma mb), (Z.add_comm ea eb). reflexivity.
Qed.

(** Multiplying a valid value by [1] or [-1] is exact. *)
Lemma mul_unit_r (s t : bool) (m : positive) (e : Z) :
  bounded F32.prec F32.emax m e = true ->
  F32.mul (S754_finite s m e) (S754_finite t 8388608 (-23))
  = S754_finite (xorb s t) m e.
Proof.
  intros Hb. unfold bounded, canonical_mantissa in Hb.
  apply andb_true_iff in Hb as [Hc He]. apply Z.eqb_eq in Hc. apply Z.leb_le in He.
  unfold F32.mul, SFmul.
  rewrite (Pos.mul_comm m 8388608).
  change (8388608 * m)%positive
    with (m~0~0~0~0~0~0~0~0~0~0~0~0~0~0~0~0~0~0~0~0~0~0~0)%positive.
  assert (Hd : Zdigits2 (Z.pos (m~0~0~0~0~0~0~0~0~0~0~0~0~0~0~0~0~0~0~0~0~0~0~0))
               = Z.pos (digits2_pos m) + 23) by (simpl; lia).
  assert (H1 : shr_fexp F32.prec F32.emax
                 (Z.pos (m~0~0~0~0~0~0~0~0~0~0~0~0~0~0~0~0~0~0~0~0~0~0~0))
                 (e + -23) loc_Exact
               = ({| shr_m := Z.pos m; shr_r := false; shr_s := false |}, e)).
  { unfold shr_fexp. rewrite Hd.
    replace (Z.pos (digits2_pos m) + 23 + (e + -23))
      with (Z.pos (digits2_pos m) + e) by lia.
    rewrite Hc. replace (e - (e + -23)) with 23 by lia.
    unfold shr. simpl. f_equal. lia. }
  unfold binary_round_aux. rewrite H1.
  cbn [shr_m loc_of_shr_record round_nearest_even].
  unfold shr_fexp. cbn [Zdigits2]. rewrite Hc, Z.sub_diag.
  cbn [shr shr_record_of_loc shr_m].
  destruct (Z.leb_spec e (F32.emax - F32.prec)); [reflexivity|lia].
Qed.

Lemma mul_one_r (x : float) : regular x = true -> F32.mul x F32.one = x.
Proof.
  destruct x as [[] | | | s m e]; intros Hx; simpl in Hx; try discriminate.
  - reflexivity.
  - change F32.one with (S754_finite false 8388608 (-23)).
    rewrite (mul_unit_r s false m e Hx), xorb_false_r. reflexivity.
Qed.

Lemma mul_one_l (x : float) : regular x = true -> F32.mul F32.one x = x.
Proof. intros Hx. rewrite mul_comm. apply mul_one_r. exact Hx. Qed.

Lemma mul_minus_one_l (x : float) :
  valid x = true -> F32.mul (F32.neg F32.one) x = F32.neg x.
Proof.
  destruct x as [| | | s m e]; intros Hx; simpl in Hx; try discriminate.
  rewrite mul_comm.
  change (F32.neg F32.one) with (S754_finite true 8388608 (-23)).
  rewrite (mul_unit_r s true m e Hx), xorb_true_r. reflexivity.
Qed.

Lemma mul_zero_l (s : bool) (x : float) :
  is_finite x = true -> exists s', F32.mul (S754_zero s) x = S754_zero s'.
Proof.
  destruct x as [sx | | | sx m e]; simpl; try discriminate; intros _;
    eexists; reflexivity.
Qed.

Lemma mul_zero_r (s : bool) (x : float) :
  is_finite x = true -> exists s', F32.mul x (S754_zero s) = S754_zero s'.
Proof. intros Hx. rewrite mul_comm. apply mul_zero_l. exact Hx. Qed.

Lemma regular_finite (x : float) : regular x = true -> is_finite x = true.
Proof. destruct x; simpl; try discriminate; reflexivity. Qed.

Lemma add_zero_r (x : float) (s : bool) :
  regular x = true -> F32.add x (S754_zero s) = x.
Proof.
  destruct x as [[] | | | sx m e]; simpl; try discriminate; intros _;
    destruct s; reflexivity.
Qed.

Lemma add_zero_l (x : float) (s : bool) :
  regular x = true -> F32.add (S754_zero s) x = x.
Proof.
  destruct x as [[] | | | sx m e]; simpl; try discriminate; intros _;
    destruct s; reflexivity.
Qed.

Lemma add_zeros (s t : bool) : exists u, F32.add (S754_zero s) (S754_zero t) = S754_zero u.
Proof. destruct s, t; eexists; reflexivity. Qed.

Lemma add_pzero_zero (s : bool) : F32.add (S754_zero false) (S754_zero s) = S754_zero false.
Proof. destruct s; reflexivity. Qed.

Lemma sub_self (p : float) : is_finite p = true -> F32.sub p p = S754_zero false.
Proof.
  destruct p as [[] | | | s m e]; simpl; try discriminate; intros _; try reflexivity.
  unfold F32.sub, SFsub. rewrite Z.sub_diag. reflexivity.
Qed.

(** ** Vectors *)

Lemma binary_round_aux_sign_clear (m e : Z) (l : location) :
  sign_clear (binary_round_aux F32.prec F32.emax false m e l).
Proof.
  pose proof (binary_round_aux_sign false m e l) as H.
  destruct (binary_round_aux F32.prec F32.emax false m e l); simpl; auto.
Qed.

Lemma square_sign_clear (x : float) : sign_clear (F32.mul x x).
Proof.
  destruct x as [s | s | | s m e]; simpl; try exact I.
  - destruct s; reflexivity.
  - destruct s; reflexivity.
  - rewrite xorb_nilpotent. apply binary_round_aux_sign_clear.
Qed.

Lemma add_sign_clear (a b : float) :
  sign_clear a -> sign_clear b -> sign_clear (F32.add a b).
Proof.
  destruct a as [sa | sa | | sa ma ea], b as [sb | sb | | sb mb eb];
    simpl; intros Ha Hb; subst; simpl; try exact I; try reflexivity.
  unfold F32.add, SFadd, binary_normalize. simpl cond_Zopp.
  destruct (shl_align ma ea (Z.min ea eb)) as [ma' ea'].
  destruct (shl_align mb eb (Z.min ea eb)) as [mb' eb'].
  simpl. unfold binary_round.
  destruct (shl_align _ _ _) as [mz ez].
  apply binary_round_aux_sign_clear.
Qed.

Lemma sqrt_sign_clear (a : float) : sign_clear a -> sign_clear (F32.sqrt a).
Proof.
  destruct a as [s | s | | s m e]; simpl; intros Ha; subst; simpl; try exact I;
    try reflexivity.
  unfold F32.sqrt, SFsqrt.
  destruct (SFsqrt_core_binary _ _ _ _) as [[mz ez] lz].
  apply binary_round_aux_sign_clear.
Qed.

(** X1  [Vec3::dot] is symmetric, for all operands (NaN and infinities
    included). *)
Theorem X1_dot_symmetric (a b : Vec3) : Vec3.dot a b = Vec3.dot b a.
Proof.
  unfold Vec3.dot.
  rewrite (mul_comm (x3 a) (x3 b)), (mul_comm (y3 a) (y3 b)), (mul_comm (z3 a) (z3 b)).
  reflexivity.
Qed.

(** X2  [Vec3::length] never returns a negative value or [-0]: for every
    vector the result is NaN, [+0], positive or [+infinity]; so the test
    [len > 0] of [normalize] fails exactly when the length is [+0] or
    NaN. *)
Theorem X2_length_sign_clear (v : Vec3) :
  sign_clear (Vec3.length v) /\
  F32.lt (Vec3.length v) F32.zero = false /\
  (F32.gt (Vec3.length v) F32.zero = false <->
   Vec3.length v = F32.zero \/ Vec3.length v = S754_nan).
Proof.
  assert (Hs : sign_clear (Vec3.length v)).
  { unfold Vec3.length, Vec3.dot.
    apply sqrt_sign_clear; repeat apply add_sign_clear; apply square_sign_clear. }
  split; [exact Hs|].
  destruct (Vec3.length v) as [s | s | | s m e]; simpl in Hs; subst;
    unfold F32.lt, F32.gt, SFltb; simpl; (split; [reflexivity|]);
    split; intros H; try discriminate; auto;
    destruct H as [H | H]; discriminate.
Qed.

Lemma cross_self (e : Vec3) :
  is_finite (F32.mul (y3 e) (z3 e)) = true ->
  is_finite (F32.mul (z3 e) (x3 e)) = true ->
  is_finite (F32.mul (x3 e) (y3 e)) = true ->
  Vec3.cross e e = Vec3.zero.
Proof.
  intros H1 H2 H3. unfold Vec3.cross, Vec3.zero.
  rewrite (mul_comm (z3 e) (y3 e)), (mul_comm (x3 e) (z3 e)), (mul_comm (y3 e) (x3 e)).
  rewrite !sub_self by assumption. reflexivity.
Qed.

Lemma dot_zero_l (v : Vec3) :
  finite3 v = true -> exists s, Vec3.dot Vec3.zero v = S754_zero s.
Proof.
  unfold finite3. rewrite !andb_true_iff. intros [[Hx Hy] Hz].
  unfold Vec3.dot, Vec3.zero. cbn [x3 y3 z3].
  destruct (mul_zero_l false (x3 v) Hx) as [s1 E1].
  destruct (mul_zero_l false (y3 v) Hy) as [s2 E2].
  destruct (mul_zero_l false (z3 v) Hz) as [s3 E3].
  unfold F32.zero. rewrite E1, E2, E3.
  destruct (add_zeros s1 s2) as [u ->]. apply add_zeros.
Qed.

(** X3  A triangle whose second and third vertex coincide has the zero
    vector as face normal and is discarded by back-face culling: nothing
    is drawn, provided the products of the edge components and the view
    vector are finite (no overflow). *)
Theorem X3_coincident_vertices_culled (W H : Z) (camera light : Vec3) (mvp : Mat4)
  (v0 v1 : Vec3) (fb : FrameBuffer) :
  let e := Vec3.subtract v1 v0 in
  is_finite (F32.mul (y3 e) (z3 e)) = true ->
  is_finite (F32.mul (z3 e) (x3 e)) = true ->
  is_finite (F32.mul (x3 e) (y3 e)) = true ->
  finite3 (view_vector camera (v0, v1, v1)) = true ->
  face_normal (v0, v1, v1) = Vec3.zero /\
  back_facing camera (v0, v1, v1) = true /\
  draw_triangle W H camera light mvp (v0, v1, v1) fb = Some fb.
Proof.
  intros e H1 H2 H3 Hv.
  assert (Hn : face_normal (v0, v1, v1) = Vec3.zero).
  { unfold face_normal. fold e. rewrite (cross_self e H1 H2 H3).
    vm_compute. reflexivity. }
  assert (Hb : back_facing camera (v0, v1, v1) = true).
  { unfold back_facing. rewrite Hn.
    destruct (dot_zero_l _ Hv) as [s ->]. destruct s; reflexivity. }
  split; [exact Hn|]. split; [exact Hb|].
  unfold draw_triangle. rewrite Hb. reflexivity.
Qed.

Lemma X3_coincident_vertices_culled_witness :
  face_normal (vec3_of_ints 0 0 0, vec3_of_ints 1 0 0, vec3_of_ints 1 0 0) = Vec3.zero /\
  back_facing camera_pos (vec3_of_ints 0 0 0, vec3_of_ints 1 0 0, vec3_of_ints 1 0 0) = true /\
  draw_triangle SCREEN_WIDTH SCREEN_HEIGHT camera_pos light_direction mvp0
    (vec3_of_ints 0 0 0, vec3_of_ints 1 0 0, vec3_of_ints 1 0 0)
    (clear SCREEN_WIDTH SCREEN_HEIGHT) = Some (clear SCREEN_WIDTH SCREEN_HEIGHT).
Proof.
  apply (X3_coincident_vertices_culled SCREEN_WIDTH SCREEN_HEIGHT camera_pos
           light_direction mvp0 (vec3_of_ints 0 0 0) (vec3_of_ints 1 0 0));
    vm_compute; reflexivity.
Defined.

(** ** Matrices *)

Ltac split_regular4 H :=
  unfold regular4 in H; rewrite !andb_true_iff in H;
  let Hx := fresh "Hx" in let Hy := fresh "Hy" in
  let Hz := fresh "Hz" in let Hw := fresh "Hw" in
  destruct H as [[[Hx Hy] Hz] Hw].

Ltac zero_products :=
  repeat match goal with
    | |- context [F32.mul (S754_zero false) ?m] =>
        let s := fresh "s" in let E := fresh "E" in
        destruct (mul_zero_l false m) as [s E];
        [auto using regular_finite | rewrite E; clear E]
    | |- context [F32.mul ?m (S754_zero false)] =>
        let s := fresh "s" in let E := fresh "E" in
        destruct (mul_zero_r false m) as [s E];
        [auto using regular_finite | rewrite E; clear E]
    end.

Ltac zero_sum_step :=
  match goal with
  | H : regular ?x = true |- context [F32.add ?x (S754_zero ?s)] =>
      rewrite (add_zero_r x s H)
  | H : regular ?x = true |- context [F32.add (S754_zero ?s) ?x] =>
      rewrite (add_zero_l x s H)
  | |- context [F32.add (S754_zero ?s) (S754_zero ?t)] =>
      let u := fresh "u" in destruct (add_zeros s t) as [u ->]
  end.

Ltac exact_sums :=
  unfold F32.zero; zero_products;
  rewrite ?mul_one_l, ?mul_one_r by assumption;
  repeat zero_sum_step;
  try reflexivity.

(** X4  Transforming by the identity matrix returns the vector, for every
    vector whose components are valid finite values or [+0]. *)
Theorem X4_identity_transform (v : Vec4) :
  regular4 v = true -> Mat4.transform Mat4.identity v = v.
Proof.
  intros Hv. split_regular4 Hv. destruct v as [x y z w]. cbn [x4 y4 z4 w4] in *.
  unfold Mat4.transform.
  cbn -[F32.add F32.mul F32.one F32.zero].
  f_equal; exact_sums.
Qed.

Lemma X4_identity_transform_witness :
  Mat4.transform Mat4.identity
    (mkVec4 (F32.of_int 3) (F32.lit (-5) (-1)) F32.zero F32.one)
  = mkVec4 (F32.of_int 3) (F32.lit (-5) (-1)) F32.zero F32.one.
Proof.
  apply (X4_identity_transform
           (mkVec4 (F32.of_int 3) (F32.lit (-5) (-1)) F32.zero F32.one)).
  vm_compute. reflexivity.
Defined.

Ltac split_regular16 H :=
  repeat match type of H with
    | Forall _ (_ :: _) =>
        let Hh := fresh "Hm" in let Ht := fresh "Ht" in
        apply Forall_cons in H as [Hh H]
    end.

(** X5  The identity matrix is a left and right unit of [Mat4::multiply],
    for every matrix of 16 entries that are valid finite values or [+0]. *)
Theorem X5_multiply_identity (M : Mat4) :
  length M = 16%nat -> Forall (fun x => regular x = true) M ->
  Mat4.multiply Mat4.identity M = M /\ Mat4.multiply M Mat4.identity = M.
Proof.
  intros Hlen HM.
  do 17 (destruct M as [|? M]; try discriminate Hlen). clear Hlen.
  split_regular16 HM. clear HM.
  split; unfold Mat4.multiply;
    cbn -[F32.add F32.mul F32.one F32.zero];
    repeat (apply (f_equal2 cons); [solve [exact_sums]|]); reflexivity.
Qed.

Lemma X5_multiply_identity_witness :
  Mat4.multiply Mat4.identity mvp0 = mvp0 /\ Mat4.multiply mvp0 Mat4.identity = mvp0.
Proof.
  apply (X5_multiply_identity mvp0).
  - vm_compute. reflexivity.
  - vm_compute. repeat (apply Forall_cons; split; [reflexivity|]). apply Forall_nil_2.
Defined.

(** X6  The matrix of [create_translation(t)] moves a point: applied to
    [(x, y, z, 1)] it gives [(x + t.x, y + t.y, z + t.z, 1)], for
    components that are valid finite values or [+0]. *)
Theorem X6_translation_moves_point (t p : Vec3) :
  regular3 t = true -> regular3 p = true ->
  Mat4.transform (Mat4.create_translation t) (mkVec4 (x3 p) (y3 p) (z3 p) F32.one)
  = mkVec4 (F32.add (x3 p) (x3 t)) (F32.add (y3 p) (y3 t)) (F32.add (z3 p) (z3 t)) F32.one.
Proof.
  unfold regular3. rewrite !andb_true_iff. intros [[Htx Hty] Htz] [[Hx Hy] Hz].
  assert (H1 : regular F32.one = true) by reflexivity.
  destruct t as [tx ty tz], p as [x y z]. cbn [x3 y3 z3] in *.
  unfold Mat4.transform.
  cbn -[F32.add F32.mul F32.one F32.zero].
  f_equal; exact_sums.
Qed.

Lemma X6_translation_moves_point_witness :
  Mat4.transform (Mat4.create_translation (vec3_of_ints 1 2 3))
    (mkVec4 (F32.of_int 4) (F32.of_int 0) (F32.of_int (-6)) F32.one)
  = mkVec4 (F32.of_int 5) (F32.of_int 2) (F32.of_int (-3)) F32.one.
Proof.
  apply (X6_translation_moves_point (vec3_of_ints 1 2 3) (vec3_of_ints 4 0 (-6)));
    vm_compute; reflexivity.
Defined.

Lemma valid_neg (z : float) : valid z = true -> regular (F32.neg z) = true.
Proof. destruct z; simpl; try discriminate. auto. Qed.

(** X7  Whatever the field of view, aspect ratio and planes, the
    perspective matrix puts the negated [z] into the clip-space [w]:
    [w_clip = -z] for a valid finite [z] and [x], [y], [w] that are valid
    finite values or [+0]. *)
Theorem X7_perspective_clip_w (tan_half_fov aspect near_plane far_plane : float)
  (v : Vec4) :
  regular (x4 v) = true -> regular (y4 v) = true -> valid (z4 v) = true ->
  regular (w4 v) = true ->
  w4 (Mat4.transform (Mat4.perspective tan_half_fov aspect near_plane far_plane) v)
  = F32.neg (z4 v).
Proof.
  intros Hx Hy Hz Hw. destruct v as [x y z w]. cbn [x4 y4 z4 w4] in *.
  pose proof (valid_neg z Hz) as Hnz.
  unfold Mat4.transform, Mat4.perspective.
  cbn -[F32.add F32.mul F32.one F32.zero F32.neg F32.div F32.sub F32.lit].
  rewrite (mul_minus_one_l z Hz).
  exact_sums.
Qed.

Lemma X7_perspective_clip_w_witness :
  w4 (Mat4.transform (Mat4.perspective F32.one F32.one F32.tenth (F32.lit 100 0))
        (mkVec4 (F32.of_int 1) (F32.of_int 2) (F32.of_int (-3)) F32.one))
  = F32.of_int 3.
Proof.
  apply (X7_perspective_clip_w F32.one F32.one F32.tenth (F32.lit 100 0)
           (mkVec4 (F32.of_int 1) (F32.of_int 2) (F32.of_int (-3)) F32.one));
    vm_compute; reflexivity.
Defined.

(** ** The frame as a whole *)

Lemma get_ascii_char_in_ramp (intensity : float) : in_ramp (get_ascii_char intensity).
Proof.
  unfold get_ascii_char.
  change (Z.of_nat (String.length ascii_chars) - 1) with 9.
  set (k := Z.max 0 (Z.min 9 _)).
  destruct (ramp_index k) as [c Hc]; [unfold k; lia|].
  rewrite Hc. exists (Z.to_nat k). exact Hc.
Qed.

Lemma gt_irrefl (a : float) : F32.gt a a = false.
Proof.
  destruct (F32.gt a a) eqn:E; [|reflexivity].
  pose proof (gt_asym a a E). congruence.
Qed.

Lemma gt_zero_not_negative (d : float) : F32.gt d F32.zero = true -> not_negative d.
Proof.
  destruct d as [s | s | | s m e]; simpl; try exact (fun _ => I);
    destruct s; unfold F32.gt, SFltb; simpl; congruence.
Qed.

(** Drawing a mesh, cell by cell: a property of the stored pairs that
    every depth test preserves holds after the loop when it held before. *)
Lemma draw_triangles_invariant (P : float * ascii -> Prop)
  (W H : Z) (camera light : Vec3) (mvp : Mat4) (ts : list Triangle) :
  (forall t iw old, P old -> not_negative iw ->
     P (depth_test (flat_glyph light t) iw old)) ->
  forall fb,
    buffers_sized W H fb ->
    (forall x y, 0 <= x < W -> 0 <= y < H ->
       exists p, pixel_at W fb x y = Some p /\ P p) ->
    exists fb',
      draw_triangles W H camera light mvp ts fb = Some fb' /\
      buffers_sized W H fb' /\
      forall x y, 0 <= x < W -> 0 <= y < H ->
        exists p, pixel_at W fb' x y = Some p /\ P p.
Proof.
  intros Hstep. unfold draw_triangles.
  induction ts as [|t ts IH]; intros fb Hs HP.
  - exists fb. auto.
  - destruct (draw_triangle_spec W H camera light mvp t fb Hs)
      as (fb1 & E1 & S1 & C1).
    destruct (IH fb1 S1) as (fb' & E' & S' & C').
    + intros x y Hx Hy. destruct (HP x y Hx Hy) as (p & Hp & HPp).
      rewrite (C1 x y Hx Hy), Hp. simpl. eexists. split; [reflexivity|].
      destruct (footprint W H camera mvp t x y) as [iw|] eqn:Ef; simpl; [|exact HPp].
      apply Hstep; [exact HPp|].
      apply (footprint_not_negative W H camera mvp t x y iw Ef).
    + exists fb'. simpl. rewrite E1. simpl. auto.
Qed.

(** X8  Rendering a frame never reads or writes outside the buffers,
    whatever the mesh and the matrix, and leaves in every cell either
    the cleared pair (depth 0, blank) or a depth greater than 0: a
    depth is never negative and never NaN. *)
Theorem X8_frame_depths (mvp : Mat4) (ts : list Triangle) :
  exists fb,
    render_frame mvp ts = Some fb /\
    buffers_sized SCREEN_WIDTH SCREEN_HEIGHT fb /\
    forall x y, 0 <= x < SCREEN_WIDTH -> 0 <= y < SCREEN_HEIGHT ->
      exists p, pixel_at SCREEN_WIDTH fb x y = Some p /\ cleared_or_positive p.
Proof.
  unfold render_frame.
  apply (draw_triangles_invariant cleared_or_positive).
  - intros t iw [d c] Hold _. unfold depth_test. simpl.
    destruct (F32.gt iw d) eqn:Hgt; [|exact Hold].
    right. simpl. destruct Hold as [[= -> ->] | Hpos]; [exact Hgt|].
    simpl in Hpos. apply (gt_not_negative_gt_zero iw d); [|exact Hgt].
    apply gt_zero_not_negative. exact Hpos.
  - apply clear_sized.
  - intros x y Hx Hy. rewrite (pixel_at_clear _ _ x y Hx Hy).
    eexists. split; [reflexivity|]. left. reflexivity.
Qed.

(** X9  After a frame every glyph of the glyph buffer is a character of
    the ramp [" .:-=+*#%@"], the characters whose textures are
    pre-rendered. *)
Theorem X9_frame_glyphs_in_ramp (mvp : Mat4) (ts : list Triangle) :
  exists fb,
    render_frame mvp ts = Some fb /\
    forall x y, 0 <= x < SCREEN_WIDTH -> 0 <= y < SCREEN_HEIGHT ->
      exists d c, pixel_at SCREEN_WIDTH fb x y = Some (d, c) /\ in_ramp c.
Proof.
  unfold render_frame.
  destruct (draw_triangles_invariant (fun p => in_ramp (snd p))
              SCREEN_WIDTH SCREEN_HEIGHT camera_pos light_direction mvp ts)
    with (fb := clear SCREEN_WIDTH SCREEN_HEIGHT) as (fb & E & _ & C).
  - intros t iw [d c] Hold _. unfold depth_test. simpl.
    destruct (F32.gt iw d); [|exact Hold]. apply get_ascii_char_in_ramp.
  - apply clear_sized.
  - intros x y Hx Hy. rewrite (pixel_at_clear _ _ x y Hx Hy).
    eexists. split; [reflexivity|]. exists 0%nat. reflexivity.
  - exists fb. split; [exact E|]. intros x y Hx Hy.
    destruct (C x y Hx Hy) as ([d c] & Hp & Hr). exists d, c. auto.
Qed.

(** X10  A cell that no triangle of the mesh covers keeps what it held
    before the mesh was drawn; in a frame it stays at depth 0 and blank. *)
Theorem X10_uncovered_cells_unchanged (W H : Z) (camera light : Vec3) (mvp : Mat4)
  (ts : list Triangle) (fb : FrameBuffer) (x y : Z) :
  buffers_sized W H fb -> 0 <= x < W -> 0 <= y < H ->
  (forall t, t ∈ ts -> footprint W H camera mvp t x y = None) ->
  exists fb',
    draw_triangles W H camera light mvp ts fb = Some fb' /\
    pixel_at W fb' x y = pixel_at W fb x y.
Proof.
  intros Hs Hx Hy. revert fb Hs. unfold draw_triangles.
  induction ts as [|t ts IH]; intros fb Hs Hnone.
  - exists fb. auto.
  - destruct (draw_triangle_spec W H camera light mvp t fb Hs)
      as (fb1 & E1 & S1 & C1).
    destruct (IH fb1 S1) as (fb' & E' & C').
    { intros t' Ht'. apply Hnone. right. exact Ht'. }
    exists fb'. simpl. rewrite E1. simpl. split; [exact E'|].
    rewrite C', (C1 x y Hx Hy), (Hnone t) by left.
    apply fmap_cover_None.
Qed.

Lemma X10_uncovered_cells_unchanged_witness :
  exists fb',
    draw_triangles SCREEN_WIDTH SCREEN_HEIGHT camera_pos light_direction mvp0
      [tri_floor; tri_back] (clear SCREEN_WIDTH SCREEN_HEIGHT) = Some fb' /\
    pixel_at SCREEN_WIDTH fb' 3 4 = pixel_at SCREEN_WIDTH (clear SCREEN_WIDTH SCREEN_HEIGHT) 3 4.
Proof.
  apply (X10_uncovered_cells_unchanged SCREEN_WIDTH SCREEN_HEIGHT camera_pos
           light_direction mvp0 [tri_floor; tri_back]
           (clear SCREEN_WIDTH SCREEN_HEIGHT) 3 4).
  - apply clear_sized.
  - unfold SCREEN_WIDTH. lia.
  - unfold SCREEN_HEIGHT. lia.
  - intros t Ht. apply elem_of_cons in Ht as [-> | Ht].
    + vm_compute. reflexivity.
    + apply list_elem_of_singleton in Ht as ->. vm_compute. reflexivity.
Defined.

Lemma framebuffer_ext (W H : Z) (fb1 fb2 : FrameBuffer) :
  0 < W -> buffers_sized W H fb1 -> buffers_sized W H fb2 ->
  (forall x y, 0 <= x < W -> 0 <= y < H -> pixel_at W fb1 x y = pixel_at W fb2 x y) ->
  fb1 = fb2.
Proof.
  intros HW S1 S2 Hall.
  assert (Hi : forall i : nat, (i < Z.to_nat (W * H))%nat ->
             depth_buffer fb1 !! i = depth_buffer fb2 !! i /\
             char_buffer fb1 !! i = char_buffer fb2 !! i).
  { intros i Hlt.
    set (x := Z.of_nat i mod W). set (y := Z.of_nat i / W).
    assert (Hx : 0 <= x < W) by (apply Z.mod_pos_bound; lia).
    assert (Hxy : y * W + x = Z.of_nat i).
    { unfold x, y. rewrite (Z.mul_comm _ W). symmetry. apply Z.div_mod. lia. }
    assert (Hy : 0 <= y < H).
    { split; [apply Z.div_pos; lia|].
      apply Z.div_lt_upper_bound; lia. }
    destruct (pixel_at_sized W H fb1 x y S1 Hx Hy) as (d1 & c1 & Hd1 & Hc1 & Hp1).
    destruct (pixel_at_sized W H fb2 x y S2 Hx Hy) as (d2 & c2 & Hd2 & Hc2 & Hp2).
    specialize (Hall x y Hx Hy). rewrite Hp1, Hp2 in Hall.
    rewrite Hxy, Nat2Z.id in Hd1, Hc1, Hd2, Hc2.
    injection Hall as -> ->. rewrite Hd1, Hd2, Hc1, Hc2. split; reflexivity. }
  destruct S1 as [L1 L1'], S2 as [L2 L2'].
  destruct fb1 as [d1 c1], fb2 as [d2 c2]. simpl in *.
  f_equal; apply list_eq; intros i;
    (destruct (decide (i < Z.to_nat (W * H))%nat) as [Hlt | Hge];
     [apply (Hi i Hlt) | rewrite !lookup_ge_None_2 by lia; reflexivity]).
Qed.

Lemma cover_idempotent (ch : ascii) (o : option float) (p : float * ascii) :
  cover ch o (cover ch o p) = cover ch o p.
Proof.
  destruct o as [iw|]; [|reflexivity]. destruct p as [d c].
  unfold cover, depth_test. simpl.
  destruct (F32.gt iw d) eqn:E; simpl.
  - rewrite gt_irrefl. reflexivity.
  - rewrite E. reflexivity.
Qed.

(** X11  Drawing a triangle a second time changes nothing: a mesh with a
    repeated face gives the same buffers as the mesh without the
    repetition. *)
Theorem X11_draw_twice (W H : Z) (camera light : Vec3) (mvp : Mat4)
  (t : Triangle) (fb : FrameBuffer) :
  0 < W -> buffers_sized W H fb ->
  exists fb',
    draw_triangle W H camera light mvp t fb = Some fb' /\
    draw_triangle W H camera light mvp t fb' = Some fb'.
Proof.
  intros HW Hs.
  destruct (draw_triangle_spec W H camera light mvp t fb Hs) as (fb1 & E1 & S1 & C1).
  destruct (draw_triangle_spec W H camera light mvp t fb1 S1) as (fb2 & E2 & S2 & C2).
  exists fb1. split; [exact E1|]. rewrite E2. f_equal.
  apply (framebuffer_ext W H fb2 fb1 HW S2 S1).
  intros x y Hx Hy. rewrite (C2 x y Hx Hy), (C1 x y Hx Hy).
  destruct (pixel_at W fb x y) as [p|]; simpl; [|reflexivity].
  rewrite cover_idempotent. reflexivity.
Qed.

Lemma X11_draw_twice_witness :
  exists fb',
    draw_triangle 16 16 camera_pos light_direction mvp0 tri_floor (clear 16 16) = Some fb' /\
    draw_triangle 16 16 camera_pos light_direction mvp0 tri_floor fb' = Some fb'.
Proof.
  apply (X11_draw_twice 16 16 camera_pos light_direction mvp0 tri_floor (clear 16 16)).
  - lia.
  - apply clear_sized.
Defined.

(** X12  One triangle changes a cell only by raising its depth: every
    cell either keeps its depth and glyph, or is covered by the triangle
    and gets a strictly greater depth together with the triangle's
    glyph. *)
Theorem X12_depth_only_rises (W H : Z) (camera light : Vec3) (mvp : Mat4)
  (t : Triangle) (fb : FrameBuffer) :
  buffers_sized W H fb ->
  exists fb',
    draw_triangle W H camera light mvp t fb = Some fb' /\
    forall x y, 0 <= x < W -> 0 <= y < H ->
      exists d c d' c',
        pixel_at W fb x y = Some (d, c) /\
        pixel_at W fb' x y = Some (d', c') /\
        ((d' = d /\ c' = c) \/
         (footprint W H camera mvp t x y = Some d' /\
          F32.gt d' d = true /\ c' = flat_glyph light t)).
Proof.
  intros Hs.
  destruct (draw_triangle_spec W H camera light mvp t fb Hs) as (fb1 & E1 & S1 & C1).
  exists fb1. split; [exact E1|]. intros x y Hx Hy.
  destruct (pixel_at_sized W H fb x y Hs Hx Hy) as (d & c & _ & _ & Hp).
  specialize (C1 x y Hx Hy). rewrite Hp in C1. simpl in C1.
  destruct (footprint W H camera mvp t x y) as [iw|]; simpl in C1.
  - unfold depth_test in C1. simpl in C1.
    destruct (F32.gt iw d) eqn:Hgt.
    + exists d, c, iw, (flat_glyph light t). auto 6.
    + exists d, c, d, c. auto.
  - exists d, c, d, c. auto.
Qed.

Lemma X12_depth_only_rises_witness :
  exists fb',
    draw_triangle 16 16 camera_pos light_direction mvp0 tri_floor (clear 16 16) = Some fb' /\
    forall x y, 0 <= x < 16 -> 0 <= y < 16 ->
      exists d c d' c',
        pixel_at 16 (clear 16 16) x y = Some (d, c) /\
        pixel_at 16 fb' x y = Some (d', c') /\
        ((d' = d /\ c' = c) \/
         (footprint 16 16 camera_pos mvp0 tri_floor x y = Some d' /\
          F32.gt d' d = true /\ c' = flat_glyph light_direction tri_floor)).
Proof.
  apply (X12_depth_only_rises 16 16 camera_pos light_direction mvp0 tri_floor (clear 16 16)).
  apply clear_sized.
Defined.

(** ** Start-up *)

(** X13  [main] enters the main loop exactly when all six start-up checks
    pass (argument count, SDL, SDL_ttf, font, window and renderer, model),
    and then writes nothing to the error stream; in every other case it
    returns 1 after writing exactly one line to the error stream. *)
Theorem X13_startup_outcome (argv : list string) (env : Env) :
  if startup_ok argv env
  then snd (main argv env) = MainLoop (argv_at argv 1) (argv_at argv 2) /\
       stderr_lines (fst (main argv env)) = []
  else snd (main argv env) = Return 1 /\
       exists line, stderr_lines (fst (main argv env)) = [line].
Proof.
  unfold startup_ok, main, main_init, main_load.
  destruct (Z.ltb_spec (Z.of_nat (length argv)) 3) as [Hlt | Hge].
  { destruct (Z.leb_spec 3 (Z.of_nat (length argv))); [lia|].
    simpl. split; [reflexivity|]. eexists. reflexivity. }
  destruct (Z.leb_spec 3 (Z.of_nat (length argv))); [|lia]. simpl.
  destruct (Z.ltb_spec (SDL_Init_result env) 0);
    destruct (Z.leb_spec 0 (SDL_Init_result env)); try lia; simpl.
  { split; [reflexivity|]. eexists. reflexivity. }
  destruct (TTF_Init_result env =? -1); simpl.
  { split; [reflexivity|]. eexists. reflexivity. }
  destruct (TTF_OpenFont_ok env (argv_at argv 2)); simpl;
    [|split; [reflexivity|]; eexists; reflexivity].
  destruct (window_and_renderer_ok env); simpl;
    [|split; [reflexivity|]; eexists; reflexivity].
  destruct (LoadObj_ok env (argv_at argv 1)); simpl;
    [|split; [reflexivity|]; eexists; reflexivity].
  split; reflexivity.
Qed.

(** ** Presentation *)

Lemma present_cell_step (W font_width font_height : Z) (cache cb : list ascii)
  (y x : Z) (out : list Blit) :
  0 <= y * W + x < Z.of_nat (length cb) ->
  present_cell W font_width font_height cache cb y x out
  = Some (out ++ blits_of W font_width font_height cache cb [(y, x)]).
Proof.
  intros Hc. unfold present_cell, blits_of. simpl.
  rewrite read_in_range by exact Hc.
  destruct (lookup_lt_is_Some_2 cb (Z.to_nat (y * W + x))) as [g Hg]; [lia|].
  rewrite Hg. simpl.
  destruct (negb (Ascii.eqb g " ") && cache_count cache g); simpl;
    rewrite ?app_nil_r; reflexivity.
Qed.

Lemma blits_of_cons (W font_width font_height : Z) (cache cb : list ascii)
  (c : Z * Z) (cs : list (Z * Z)) :
  blits_of W font_width font_height cache cb (c :: cs)
  = blits_of W font_width font_height cache cb [c]
    ++ blits_of W font_width font_height cache cb cs.
Proof. unfold blits_of. simpl. rewrite app_nil_r. reflexivity. Qed.

Lemma present_cells (W font_width font_height : Z) (cache cb : list ascii)
  (cs : list (Z * Z)) (out : list Blit) :
  (forall c, c ∈ cs -> 0 <= fst c * W + snd c < Z.of_nat (length cb)) ->
  for_each cs (fun c => present_cell W font_width font_height cache cb (fst c) (snd c)) out
  = Some (out ++ blits_of W font_width font_height cache cb cs).
Proof.
  revert out. induction cs as [|[y x] cs IH]; intros out Hin.
  - simpl. rewrite app_nil_r. reflexivity.
  - rewrite blits_of_cons. cbn [for_each fst snd].
    rewrite present_cell_step by (apply (Hin (y, x)); left).
    cbn [mbind option_bind]. rewrite IH, app_assoc; [reflexivity|].
    intros c' Hc'. apply Hin. right. exact Hc'.
Qed.

Lemma cache_count_spec (cache : list ascii) (c : ascii) :
  cache_count cache c = true <-> c ∈ cache.
Proof.
  unfold cache_count. rewrite existsb_exists, list_elem_of_In. split.
  - intros (c' & Hin & Heq). apply Ascii.eqb_eq in Heq. subst. exact Hin.
  - intros Hin. exists c. split; [exact Hin | apply Ascii.eqb_refl].
Qed.

(** X14  On a glyph buffer of [W * H] entries the presentation loops
    never read outside the buffer and copy exactly the cells that hold a
    non-blank glyph with a cached texture, each to its own tile
    [(x * font_width, y * font_height, font_width, font_height)]; blank
    cells are never copied, and every tile lies inside the window of
    [W * font_width] by [H * font_height] pixels. *)
Theorem X14_present_draws_non_blank (W H font_width font_height : Z)
  (cache cb : list ascii) :
  length cb = Z.to_nat (W * H) -> 0 <= font_width -> 0 <= font_height ->
  exists blits,
    present W H font_width font_height cache cb = Some blits /\
    (forall b, b ∈ blits <->
       exists x y g, 0 <= x < W /\ 0 <= y < H /\
         read cb (y * W + x) = Some g /\ g <> " "%char /\ g ∈ cache /\
         b = mkBlit g (x * font_width) (y * font_height) font_width font_height) /\
    (forall b, b ∈ blits ->
       blit_glyph b <> " "%char /\
       0 <= blit_x b /\ blit_x b + blit_w b <= W * font_width /\
       0 <= blit_y b /\ blit_y b + blit_h b <= H * font_height).
Proof.
  intros Hlen Hfw Hfh.
  set (cs := cells (range 0 (H - 1)) (range 0 (W - 1))).
  assert (Hcs : forall y x, (y, x) ∈ cs <-> 0 <= x < W /\ 0 <= y < H).
  { intros y x. unfold cs. rewrite elem_of_cells, !elem_of_range. lia. }
  assert (Hrun : present W H font_width font_height cache cb
                 = Some (blits_of W font_width font_height cache cb cs)).
  { unfold present. rewrite for_each_nested. fold cs.
    rewrite (present_cells W font_width font_height cache cb cs []); [reflexivity|].
    intros [y x] Hc. apply Hcs in Hc as [Hx Hy]. simpl.
    pose proof (cell_index_bounds W H x y Hx Hy). lia. }
  assert (Hmem : forall b, b ∈ blits_of W font_width font_height cache cb cs <->
       exists x y g, 0 <= x < W /\ 0 <= y < H /\
         read cb (y * W + x) = Some g /\ g <> " "%char /\ g ∈ cache /\
         b = mkBlit g (x * font_width) (y * font_height) font_width font_height).
  { intros b. unfold blits_of. rewrite list_elem_of_bind. split.
    - intros ([y x] & Hb & Hc). apply Hcs in Hc as [Hx Hy]. simpl in Hb.
      destruct (read cb (y * W + x)) as [g|] eqn:Hg; [|inversion Hb].
      destruct (negb (Ascii.eqb g " ") && cache_count cache g) eqn:Hcond;
        [|inversion Hb].
      apply list_elem_of_singleton in Hb. apply andb_true_iff in Hcond as [Hnb Hk].
      exists x, y, g. repeat split; try lia; try assumption.
      + intros ->. discriminate Hnb.
      + apply cache_count_spec. exact Hk.
    - intros (x & y & g & Hx & Hy & Hg & Hnb & Hk & ->).
      exists (y, x). split; [|apply Hcs; lia]. simpl. rewrite Hg.
      assert (Ascii.eqb g " " = false) as -> by (apply Ascii.eqb_neq; exact Hnb).
      apply cache_count_spec in Hk. rewrite Hk. simpl. left. }
  exists (blits_of W font_width font_height cache cb cs).
  split; [exact Hrun|]. split; [exact Hmem|].
  intros b Hb. apply Hmem in Hb as (x & y & g & Hx & Hy & _ & Hnb & _ & ->). simpl.
  split; [exact Hnb|]. nia.
Qed.

Lemma X14_present_draws_non_blank_witness :
  exists blits,
    present 2 2 7 14 (char_texture_cache (fun _ => true)) ["#"; " "; " "; "@"]%char
    = Some blits /\
    (forall b, b ∈ blits <->
       exists x y g, 0 <= x < 2 /\ 0 <= y < 2 /\
         read ["#"; " "; " "; "@"]%char (y * 2 + x) = Some g /\ g <> " "%char /\
         g ∈ char_texture_cache (fun _ => true) /\
         b = mkBlit g (x * 7) (y * 14) 7 14) /\
    (forall b, b ∈ blits ->
       blit_glyph b <> " "%char /\
       0 <= blit_x b /\ blit_x b + blit_w b <= 2 * 7 /\
       0 <= blit_y b /\ blit_y b + blit_h b <= 2 * 14).
Proof.
  apply (X14_present_draws_non_blank 2 2 7 14 (char_texture_cache (fun _ => true))
           ["#"; " "; " "; "@"]%char).
  - reflexivity.
  - lia.
  - lia.
Defined.

(** ** Shading *)

(** X15  A triangle whose raw intensity [dot(normal, -light)] is not
    above the floor [0.1f] (a face turned away from the light, or a NaN
    intensity) is shaded with the blank glyph. *)
Theorem X15_unlit_face_blank (light : Vec3) (t : Triangle) :
  F32.lt F32.tenth (Vec3.dot (face_normal t) (Vec3.scale light minus_one)) = false ->
  flat_intensity light t = F32.tenth /\ flat_glyph light t = " "%char.
Proof.
  intros Hlt. unfold flat_glyph, flat_intensity, F32.max. rewrite Hlt.
  split; [reflexivity|]. vm_compute. reflexivity.
Qed.

Lemma X15_unlit_face_blank_witness :
  flat_intensity light_direction tri_wall = F32.tenth /\
  flat_glyph light_direction tri_wall = " "%char.
Proof.
  apply (X15_unlit_face_blank light_direction tri_wall).
  vm_compute. reflexivity.
Defined.

(** ** Inverse depth *)

(** X16  The inverse depth a triangle interpolates at a cell it covers is
    never negative (it is positive, a zero or NaN), because every vertex
    that passes the behind-camera test has [w > 0] or a NaN [w]; so
    against the cleared depth 0 a covered cell is written exactly when
    its inverse depth is positive. *)
Theorem X16_inverse_depth_not_negative (W H : Z) (camera : Vec3) (mvp : Mat4)
  (t : Triangle) (x y : Z) (iw : float) :
  footprint W H camera mvp t x y = Some iw ->
  not_negative iw /\ F32.lt iw F32.zero = false.
Proof.
  intros Hf. pose proof (footprint_not_negative W H camera mvp t x y iw Hf) as Hn.
  split; [exact Hn|].
  destruct iw as [s | s | | s m e]; simpl in Hn; subst; reflexivity.
Qed.

Lemma X16_inverse_depth_not_negative_witness :
  not_negative (S754_finite false 12117024 (-26)) /\
  F32.lt (S754_finite false 12117024 (-26)) F32.zero = false.
Proof.
  apply (X16_inverse_depth_not_negative SCREEN_WIDTH SCREEN_HEIGHT camera_pos mvp0
           tri_floor 75 44).
  vm_compute. reflexivity.
Defined.

(** ** The view matrix *)

(** X17  The matrix of [lookAt] is affine whenever the eye position is
    finite: its last row is [(0, 0, 0, 1)], so a point [(x, y, z, 1)] with
    finite coordinates keeps [w = 1] under the view transform. *)
Theorem X17_lookAt_affine (eye target up p : Vec3) :
  finite3 eye = true -> finite3 p = true ->
  w4 (Mat4.transform (Mat4.lookAt eye target up) (mkVec4 (x3 p) (y3 p) (z3 p) F32.one))
  = F32.one.
Proof.
  unfold finite3. rewrite !andb_true_iff. intros [[Hex Hey] Hez] [[Hx Hy] Hz].
  assert (Hnx : is_finite (F32.neg (x3 eye)) = true) by (destruct (x3 eye); auto).
  assert (Hny : is_finite (F32.neg (y3 eye)) = true) by (destruct (y3 eye); auto).
  assert (Hnz : is_finite (F32.neg (z3 eye)) = true) by (destruct (z3 eye); auto).
  assert (H1 : regular F32.one = true) by reflexivity.
  assert (H1f : is_finite F32.one = true) by reflexivity.
  unfold Mat4.lookAt.
  set (zaxis := Vec3.normalize _). set (xaxis := Vec3.normalize _).
  set (yaxis := Vec3.cross zaxis xaxis).
  unfold Mat4.transform, Mat4.multiply.
  cbn -[F32.add F32.mul F32.one F32.zero F32.neg].
  unfold F32.zero.
  repeat match goal with
    | |- context [F32.mul (S754_zero false) ?m] =>
        let s := fresh "s" in let E := fresh "E" in
        destruct (mul_zero_l false m) as [s E]; [assumption | rewrite E; clear E]
    end.
  rewrite ?mul_one_l by assumption.
  rewrite ?add_pzero_zero.
  repeat match goal with
    | |- context [F32.mul (S754_zero false) ?m] =>
        let s := fresh "s" in let E := fresh "E" in
        destruct (mul_zero_l false m) as [s E]; [assumption | rewrite E; clear E]
    end.
  rewrite ?mul_one_l by assumption.
  repeat zero_sum_step. reflexivity.
Qed.

Lemma X17_lookAt_affine_witness :
  w4 (Mat4.transform (Mat4.lookAt camera_pos look_at up_vec)
        (mkVec4 (F32.of_int 1) (F32.of_int 0) (F32.of_int 0) F32.one))
  = F32.one.
Proof.
  apply (X17_lookAt_affine camera_pos look_at up_vec (vec3_of_ints 1 0 0));
    vm_compute; reflexivity.
Defined.
